(** * x-minecraft-launcher: user session services

    A shallow embedding of three pieces of [xmcl-runtime]:

    - [lib/util/persistance.ts]: [createSafeFile], the schema-validated file
      store with its legacy-path migration;
    - [lib/services/InstanceLogService.ts]: reading logs and crash reports;
    - [lib/services/UserService.ts]: the session manager (login, refresh,
      account and profile selection, removal, skin upload, cancellation).

    Promises are modelled by their settlement ([Outcome]); an [async] method
    that awaits a provider is split at the [await] into the synchronous code
    before it and the code after it, so that other calls can be placed in
    between.  Definitions come first, the theorems follow. *)

From Stdlib Require Import ZArith.
From stdpp Require Import base option strings list gmap.

Local Open Scope string_scope.
Local Open Scope list_scope.
Local Open Scope nat_scope.

(** ** JavaScript values, promises and objects *)

Module Js.

(** The kinds of failure the modelled code can see: a [TypeError] raised by
    the runtime (a property read on [undefined]), the cancellation-kind error
    of an aborted call, and every other rejection of a collaborator. *)
Inductive Error : Type :=
| TypeError (message : string)
| AbortError
| OtherError (message : string).

(** A settled promise, or the result of a block that may throw. *)
Inductive Outcome (A : Type) : Type :=
| Resolved (value : A)
| Rejected (reason : Error).

Arguments Resolved {A} value.
Arguments Rejected {A} reason.

Definition bind {A B : Type} (m : Outcome A) (k : A → Outcome B) : Outcome B :=
  match m with
  | Resolved a => k a
  | Rejected e => Rejected e
  end.

(** [promise.catch(e => fallback)] *)
Definition catch {A : Type} (m : Outcome A) (fallback : A) : Outcome A :=
  match m with
  | Resolved a => Resolved a
  | Rejected _ => Resolved fallback
  end.

Definition isRejected {A : Type} (m : Outcome A) : bool :=
  match m with
  | Resolved _ => false
  | Rejected _ => true
  end.

(** A value of a field the type checker does not constrain at run time. *)
Inductive Value : Type :=
| VUndefined
| VNull
| VBool (b : bool)
| VNumber (n : Z)
| VString (s : string).

(** [typeof v !== 'boolean'] *)
Definition notBoolean (v : Value) : bool :=
  match v with
  | VBool _ => false
  | _ => true
  end.

(** [String.prototype.endsWith] *)
Definition endsWith (s suffix : string) : bool :=
  let n := String.length s in
  let k := String.length suffix in
  if decide (k ≤ n)
  then bool_decide (String.substring (n - k) k s = suffix)
  else false.

(** A plain object used as a [Record<string, V>].  The list is the
    enumeration order of the own properties ([Object.keys],
    [Object.values]): a new key goes to the end, an assignment to an existing
    key keeps its place.  (Keys that are canonical array indices, which
    JavaScript enumerates first, are not identifiers of accounts.) *)
Definition Obj (V : Type) : Type := list (string * V).

Fixpoint get {V : Type} (k : string) (o : Obj V) : option V :=
  match o with
  | [] => None
  | (k', v) :: o' => if decide (k' = k) then Some v else get k o'
  end.

Fixpoint set {V : Type} (k : string) (v : V) (o : Obj V) : Obj V :=
  match o with
  | [] => [(k, v)]
  | (k', v') :: o' =>
      if decide (k' = k) then (k, v) :: o' else (k', v') :: set k v o'
  end.

Fixpoint del {V : Type} (k : string) (o : Obj V) : Obj V :=
  match o with
  | [] => []
  | (k', v') :: o' =>
      if decide (k' = k) then del k o' else (k', v') :: del k o'
  end.

Definition keys {V : Type} (o : Obj V) : list string := o.*1.
Definition values {V : Type} (o : Obj V) : list V := o.*2.

(** [Array.prototype.find] *)
Fixpoint find {A : Type} (p : A → bool) (l : list A) : option A :=
  match l with
  | [] => None
  | x :: l' => if p x then Some x else find p l'
  end.

(** The truthiness of a string: [!!s]. *)
Definition truthy (s : string) : bool := negb (bool_decide (s = "")).

(** The members of [Object.prototype].  A plain object inherits them: the
    read [o[name]] at one of these names finds the inherited member, not
    [undefined], unless [o] has an own property of that name. *)
Definition objectPrototype : list string :=
  [ "constructor"; "__proto__"; "hasOwnProperty"; "isPrototypeOf";
    "propertyIsEnumerable"; "toLocaleString"; "toString"; "valueOf";
    "__defineGetter__"; "__defineSetter__"; "__lookupGetter__";
    "__lookupSetter__" ].

Definition inherited (name : string) : bool :=
  bool_decide (name ∈ objectPrototype).

End Js.

Export Js.

#[global] Instance Outcome_bind : MBind Outcome := λ A B k m, Js.bind m k.
#[global] Instance Outcome_ret : MRet Outcome := @Resolved.

(** ** The file system seen by the services *)

Module Fs.

Definition Buffer : Type := list Byte.byte.

(** A file on disk: its bytes, and whether the process may read it. *)
Record File : Type := { content : Buffer; readable : bool }.

(** Modelled from the spec: [missing(path)] of [util/fs], which is not
    among the sources at hand: the path does not exist. *)
Definition missing (path : string) (disk : gmap string File) : bool :=
  bool_decide (disk !! path = None).

(** [readFile(path)]: rejects when the file is absent or unreadable. *)
Definition readFile (path : string) (disk : gmap string File) : Outcome Buffer :=
  match disk !! path with
  | Some f =>
      if readable f then Resolved (content f)
      else Rejected (OtherError "EACCES")
  | None => Rejected (OtherError "ENOENT")
  end.

(** [copyFile(src, dest)] of [fs/promises]: rejects when the source cannot
    be read or the destination cannot be written, else creates or overwrites
    the destination with the bytes of the source.  It creates no directory:
    [writable dest] tells whether the process can create or replace the file
    at [dest] (its directory exists and accepts the write). *)
Definition copyFile (writable : string → bool) (src dest : string)
  (disk : gmap string File) : Outcome (gmap string File) :=
  b ← readFile src disk;
  if writable dest
  then mret (<[dest := {| content := b; readable := true |}]> disk)
  else Rejected (OtherError "ENOENT").

End Fs.

Export Fs.

(** ** [lib/util/persistance.ts] *)

Module Persistance.

(** What one [read()] leaves behind: the decoded document, the disk after
    it, and the copies it made (source, destination), oldest first. *)
Record ReadResult (T : Type) : Type :=
  { document : T; disk_after : gmap string File; copies : list (string * string) }.

Arguments document {T} _.
Arguments disk_after {T} _.
Arguments copies {T} _.

(** The loop of [read]:
    [for (const p of legacyPaths) { try { await copyFile(p, path); break } catch {} }] *)
Fixpoint migrate (writable : string → bool) (path : string)
  (legacyPaths : list string) (disk : gmap string File)
  : gmap string File * list (string * string) :=
  match legacyPaths with
  | [] => (disk, [])
  | p :: rest =>
      match copyFile writable p path disk with
      | Resolved disk' => (disk', [(p, path)])
      | Rejected _ => migrate writable path rest disk
      end
  end.

(** [createSafeFile(path, schema, logger, legacyPaths).read()].  The
    serializer of [util/serialize] is a parameter: [deserialize] stands for
    [serializer.deserialize]; [writable] is the one of [copyFile]. *)
Definition read {T : Type} (writable : string → bool) (deserialize : Buffer → T)
  (path : string) (legacyPaths : list string) (disk : gmap string File)
  : ReadResult T :=
  let '(disk1, copied) :=
    if missing path disk then migrate writable path legacyPaths disk
    else (disk, []) in
  let buffer :=
    match readFile path disk1 with
    | Resolved b => b
    | Rejected _ => []          (* [.catch(e => Buffer.from(''))] *)
    end in
  {| document := deserialize buffer; disk_after := disk1; copies := copied |}.

(** A legacy path whose copy to [path] succeeds. *)
Definition copyable (writable : string → bool) (path : string)
  (disk : gmap string File) (p : string) : bool :=
  negb (isRejected (copyFile writable p path disk)).

End Persistance.

(** ** [lib/services/InstanceLogService.ts] *)

Module InstanceLogService.

(** The collaborators of the service: the instance directory, Node's [path]
    and [fs/promises], [util/zip], the encoding worker and the [UTF8]
    constant of [util/encoding]. *)
Record Env : Type := {
  instancePath : string;
  join : list string → string;
  isAbsolute : string → bool;
  trim : string → string;
  fsReadFile : string → Outcome Buffer;
  gunzip : Buffer → Outcome Buffer;
  guessEncodingByBuffer : Buffer → Outcome (option string);
  decode : Buffer → string → Outcome string;
  UTF8 : string;
}.

(** [encoding || UTF8] where [encoding] is a string or [undefined]. *)
Definition orUTF8 (env : Env) (encoding : option string) : string :=
  match encoding with
  | Some e => if truthy e then e else UTF8 env
  | None => UTF8 env
  end.

(** [getLogContent(name)]: the body runs in [try { } catch (e) { return '' }];
    the rejection of the encoding guess is caught on its own. *)
Definition getLogContent (env : Env) (name : string) : Outcome string :=
  catch
    (let filePath := join env [instancePath env; "logs"; name] in
     buf ← fsReadFile env filePath;
     buf ← (if endsWith name ".gz" then gunzip env buf else mret buf);
     encoding ← catch (guessEncodingByBuffer env buf) None;
     result ← decode env buf (orUTF8 env encoding);
     mret result)
    "".

(** [getCrashReportContent(name)]: the same statements without the [try]. *)
Definition getCrashReportContent (env : Env) (name : string) : Outcome string :=
  let filePath :=
    if isAbsolute env name then name
    else join env [instancePath env; "crash-reports"; name] in
  buf ← fsReadFile env (trim env filePath);
  buf ← (if endsWith name ".gz" then gunzip env buf else mret buf);
  encoding ← catch (guessEncodingByBuffer env buf) None;
  result ← decode env buf (orUTF8 env encoding);
  mret result.

End InstanceLogService.

(** ** The session state ([UserState] of [@xmcl/runtime-api]) *)

Module UserState.

Record GameProfile : Type := {
  gid : string;                      (* [id] *)
  name : string;
}.

Record UserProfile : Type := {
  uid : string;                      (* [id] *)
  username : string;
  authService : string;
  profiles : gmap string GameProfile;
  selectedProfile : string;
}.

Record YggdrasilApi : Type := { url : string }.

(** The fields of [UserSchema]; [selectedUser] holds [selectedUser.id]. *)
Record UserState : Type := {
  users : Obj UserProfile;
  selectedUser : string;
  clientToken : string;
  yggdrasilServices : list YggdrasilApi;
}.

(** [new UserState()] *)
Definition empty : UserState :=
  {| users := []; selectedUser := ""; clientToken := ""; yggdrasilServices := [] |}.

Definition with_users (us : Obj UserProfile) (s : UserState) : UserState :=
  {| users := us; selectedUser := selectedUser s;
     clientToken := clientToken s; yggdrasilServices := yggdrasilServices s |}.

Definition with_selectedUser (id : string) (s : UserState) : UserState :=
  {| users := users s; selectedUser := id;
     clientToken := clientToken s; yggdrasilServices := yggdrasilServices s |}.

Definition with_selectedProfile (profileId : string) (u : UserProfile) : UserProfile :=
  {| uid := uid u; username := username u; authService := authService u;
     profiles := profiles u; selectedProfile := profileId |}.

(** Modelled from the spec: the getter [user] of the class [UserState],
    which is declared in [@xmcl/runtime-api] and not part of the sources at
    hand; the selected account is the entry of [accounts] under
    [selectedAccountId]. *)
Definition user (s : UserState) : option UserProfile :=
  get (selectedUser s) (users s).

(** Modelled from the spec: the mutation [userProfile] of [UserState]
    (missing as above), which replaces or creates the Account entry. *)
Definition userProfile (p : UserProfile) (s : UserState) : UserState :=
  with_users (set (uid p) p (users s)) s.

(** Modelled from the spec: the mutation [userSelect] of [UserState]
    (missing as above), which sets the selection. *)
Definition userSelect (id : string) (s : UserState) : UserState :=
  with_selectedUser id s.

(** Modelled from the spec: the mutation [userGameProfileSelect] of
    [UserState] (missing as above), which sets that account's
    [selectedProfile]; there is nothing to set for an id without an entry. *)
Definition userGameProfileSelect (userId profileId : string) (s : UserState)
  : UserState :=
  match get userId (users s) with
  | Some u => with_users (set userId (with_selectedProfile profileId u) (users s)) s
  | None => s
  end.

(** Modelled from the spec: the mutation [userProfileRemove] of [UserState]
    (missing as above), which deletes the account entry; the selection of a
    deleted account is left empty unless another account was selected. *)
Definition userProfileRemove (userId : string) (s : UserState) : UserState :=
  with_users (del userId (users s))
    (if decide (selectedUser s = userId) then with_selectedUser "" s else s).

End UserState.

Export UserState.

(** ** Account providers ([accountSystems/AccountSystem]) *)

Module AccountSystem.

Record LoginOptions : Type := {
  service : string;
  loginUsername : string;            (* [username] *)
  password : string;
}.

(** The skin payload; [slim] is typed [boolean] but checked at run time. *)
Record Skin : Type := { skinUrl : string; slim : Value }.

(** [UploadSkinOptions]: [None] stands for an absent ([undefined]) field. *)
Record UploadSkinOptions : Type := {
  gameProfileId : option string;
  userId : option string;
  skin : option Skin;
}.

(** The interface [UserAccountSystem].  A provider is given the arguments of
    the call and the abort signal; the last argument is [signal.aborted] as
    the provider finds it while the call is pending. *)
Record UserAccountSystem : Type := {
  login : LoginOptions → bool → Outcome UserProfile;
  refresh : UserProfile → bool → Outcome UserProfile;
  setSkin : UserProfile → GameProfile → UploadSkinOptions → bool → Outcome UserProfile;
}.

End AccountSystem.

Export AccountSystem.

(** ** [lib/services/UserService.ts] *)

Module UserService.

(** The fields of the class.  [controllers] is the store of the
    [AbortController]s created so far, each with the [aborted] flag of its
    signal; the three controller fields hold references into it.
    [accountSystems] holds the own properties of the registry, a plain
    object whose prototype is [Object.prototype].

    The arguments are typed, so [requireObject] and [requireString] pass.
    The decorators [@Lock] and [@Singleton] of [services/Service] order
    concurrent calls and are not part of this model: an operation is given
    as its uninterrupted pieces, and what runs between them is left open. *)
Record UserService : Type := {
  state : UserState;
  controllers : list bool;
  loginController : option nat;
  refreshController : option nat;
  setSkinController : option nat;
  accountSystems : gmap string UserAccountSystem;
  yggdrasilAccountSystem : UserAccountSystem;
}.

Definition with_state (s : UserState) (svc : UserService) : UserService :=
  {| state := s; controllers := controllers svc;
     loginController := loginController svc;
     refreshController := refreshController svc;
     setSkinController := setSkinController svc;
     accountSystems := accountSystems svc;
     yggdrasilAccountSystem := yggdrasilAccountSystem svc |}.

Definition with_controllers (cs : list bool) (svc : UserService) : UserService :=
  {| state := state svc; controllers := cs;
     loginController := loginController svc;
     refreshController := refreshController svc;
     setSkinController := setSkinController svc;
     accountSystems := accountSystems svc;
     yggdrasilAccountSystem := yggdrasilAccountSystem svc |}.

Definition with_loginController (c : option nat) (svc : UserService) : UserService :=
  {| state := state svc; controllers := controllers svc;
     loginController := c;
     refreshController := refreshController svc;
     setSkinController := setSkinController svc;
     accountSystems := accountSystems svc;
     yggdrasilAccountSystem := yggdrasilAccountSystem svc |}.

Definition with_refreshController (c : option nat) (svc : UserService) : UserService :=
  {| state := state svc; controllers := controllers svc;
     loginController := loginController svc;
     refreshController := c;
     setSkinController := setSkinController svc;
     accountSystems := accountSystems svc;
     yggdrasilAccountSystem := yggdrasilAccountSystem svc |}.

Definition with_setSkinController (c : option nat) (svc : UserService) : UserService :=
  {| state := state svc; controllers := controllers svc;
     loginController := loginController svc;
     refreshController := refreshController svc;
     setSkinController := c;
     accountSystems := accountSystems svc;
     yggdrasilAccountSystem := yggdrasilAccountSystem svc |}.

Definition with_accountSystems (m : gmap string UserAccountSystem)
  (svc : UserService) : UserService :=
  {| state := state svc; controllers := controllers svc;
     loginController := loginController svc;
     refreshController := refreshController svc;
     setSkinController := setSkinController svc;
     accountSystems := m;
     yggdrasilAccountSystem := yggdrasilAccountSystem svc |}.

(** The service as the constructor leaves it, before anything is loaded. *)
Definition create (systems : gmap string UserAccountSystem)
  (yggdrasil : UserAccountSystem) : UserService :=
  {| state := UserState.empty; controllers := [];
     loginController := None; refreshController := None;
     setSkinController := None;
     accountSystems := systems; yggdrasilAccountSystem := yggdrasil |}.

(** [new AbortController()]: a fresh reference, not aborted. *)
Definition newAbortController (svc : UserService) : nat * UserService :=
  (length (controllers svc), with_controllers (controllers svc ++ [false]) svc).

(** [controller.abort()] *)
Definition abort (c : nat) (svc : UserService) : UserService :=
  with_controllers (<[c := true]> (controllers svc)) svc.

(** [controller.signal.aborted] *)
Definition aborted (c : nat) (svc : UserService) : bool :=
  default false (controllers svc !! c).

(** [name] resolves to a provider: one is registered under it, or the
    read [this.accountSystems[name]] is [undefined] and the Yggdrasil
    provider stands in.  The registry is a plain object, so a name that is
    not registered but [inherited] is no such name: the read finds a member
    of [Object.prototype]. *)
Definition provided (name : string) (svc : UserService) : Prop :=
  is_Some (accountSystems svc !! name) ∨ inherited name = false.

(** [this.accountSystems[name] || this.yggdrasilAccountSystem], at the names
    that are [provided]. *)
Definition system (name : string) (svc : UserService) : UserAccountSystem :=
  default (yggdrasilAccountSystem svc) (accountSystems svc !! name).

(** A provider call an operation is waiting for, with the values the
    operation captured: the provider, the arguments, the signal. *)
Inductive Pending : Type :=
| AwaitLogin (sys : UserAccountSystem) (options : LoginOptions) (signal : nat)
| AwaitRefresh (sys : UserAccountSystem) (user : UserProfile) (signal : nat)
| AwaitSetSkin (sys : UserAccountSystem) (user : UserProfile)
    (gameProfile : GameProfile) (options : UploadSkinOptions) (signal : nat).

(** Where the synchronous start of an [async] method ends: it has returned
    or thrown, or it awaits a provider. *)
Inductive Progress (R : Type) : Type :=
| Return (result : Outcome R)
| Await (call : Pending).

Arguments Return {R} result.
Arguments Await {R} call.

(** The settlement of a pending call, given the service at that moment. *)
Definition settle (call : Pending) (svc : UserService) : Outcome UserProfile :=
  match call with
  | AwaitLogin sys options signal => login sys options (aborted signal svc)
  | AwaitRefresh sys user signal => refresh sys user (aborted signal svc)
  | AwaitSetSkin sys user gameProfile options signal =>
      setSkin sys user gameProfile options (aborted signal svc)
  end.

(** Runs an operation given as its two halves, with [between] standing for
    whatever other calls run while the provider call is pending. *)
Definition run {R : Type}
  (begin : UserService → UserService * Progress R)
  (resume : Outcome UserProfile → UserService → UserService * Outcome R)
  (between : UserService → UserService)
  (svc : UserService) : UserService * Outcome R :=
  let '(svc1, progress) := begin svc in
  match progress with
  | Return result => (svc1, result)
  | Await call => let svc2 := between svc1 in resume (settle call svc2) svc2
  end.

(** *** [login], up to [await system.login(options, signal)] *)
Definition login_begin (options : LoginOptions) (svc : UserService)
  : UserService * Progress UserProfile :=
  let sys := system (service options) svc in
  let '(c, svc1) := newAbortController svc in
  let svc2 := with_loginController (Some c) svc1 in
  (svc2, Await (AwaitLogin sys options c)).

(** [login] after the [await]: the [finally] handler clears the field, a
    rejection is thrown on, a profile is stored and selected. *)
Definition login_resume (result : Outcome UserProfile) (svc : UserService)
  : UserService * Outcome UserProfile :=
  let svc1 := with_loginController None svc in
  match result with
  | Rejected e => (svc1, Rejected e)
  | Resolved profile =>
      let s1 := userProfile profile (state svc1) in
      let s2 := userSelect (uid profile) s1 in
      (with_state s2 svc1, Resolved profile)
  end.

(** [setUserProfile] *)
Definition setUserProfile (profile : UserProfile) (svc : UserService)
  : UserService * Outcome unit :=
  (with_state (userProfile profile (state svc)) svc, Resolved ()).

(** [registerAccountSystem] *)
Definition registerAccountSystem (name : string) (sys : UserAccountSystem)
  (svc : UserService) : UserService :=
  with_accountSystems (<[name := sys]> (accountSystems svc)) svc.

(** [if (skin) { if (typeof skin.slim !== 'boolean') skin.slim = false }]:
    the assignment is made in the caller's object, so [options] carries it. *)
Definition defaultSlim (options : UploadSkinOptions) : UploadSkinOptions :=
  match skin options with
  | Some sk =>
      if notBoolean (slim sk)
      then {| gameProfileId := gameProfileId options; userId := userId options;
              skin := Some {| skinUrl := skinUrl sk; slim := VBool false |} |}
      else options
  | None => options
  end.

(** [gameProfileId || user.selectedProfile] *)
Definition profileKey (options : UploadSkinOptions) (user : UserProfile) : string :=
  match gameProfileId options with
  | Some g => if truthy g then g else selectedProfile user
  | None => selectedProfile user
  end.

(** *** [uploadSkin], up to [await sys.setSkin(user, gameProfile, options, signal)].
    Reading [user.profiles] of a missing user and [gameProfile.name] of a
    missing profile throw a [TypeError].  The profile is looked up among the
    profiles the account has, which is what [user.profiles[key]] finds at
    every key that is not [inherited]. *)
Definition uploadSkin_begin (options : UploadSkinOptions) (svc : UserService)
  : UserService * Progress unit :=
  let userId := default (selectedUser (state svc)) (userId options) in
  match get userId (users (state svc)) with
  | None =>
      (svc, Return (Rejected (TypeError "Cannot read properties of undefined (reading 'profiles')")))
  | Some user =>
      let gameProfile := profiles user !! profileKey options user in
      let sys := system (authService user) svc in
      let options1 := defaultSlim options in
      match gameProfile with
      | None =>
          (svc, Return (Rejected (TypeError "Cannot read properties of undefined (reading 'name')")))
      | Some gameProfile =>
          let '(c, svc1) := newAbortController svc in
          let svc2 := with_setSkinController (Some c) svc1 in
          (svc2, Await (AwaitSetSkin sys user gameProfile options1 c))
      end
  end.

Definition uploadSkin_resume (result : Outcome UserProfile) (svc : UserService)
  : UserService * Outcome unit :=
  let svc1 := with_setSkinController None svc in
  match result with
  | Rejected e => (svc1, Rejected e)
  | Resolved data => (with_state (userProfile data (state svc1)) svc1, Resolved ())
  end.

(** *** [refreshUser], up to [await system.refresh(user, signal)] *)
Definition refreshUser_begin (svc : UserService) : UserService * Progress unit :=
  match user (state svc) with
  | None => (svc, Return (Resolved ()))
  | Some user =>
      let sys := system (authService user) svc in
      let '(c, svc1) := newAbortController svc in
      let svc2 := with_refreshController (Some c) svc1 in
      (svc2, Await (AwaitRefresh sys user c))
  end.

Definition refreshUser_resume (result : Outcome UserProfile) (svc : UserService)
  : UserService * Outcome unit :=
  let svc1 := with_refreshController None svc in
  match result with
  | Rejected e => (svc1, Rejected e)
  | Resolved newUser => (with_state (userProfile newUser (state svc1)) svc1, Resolved ())
  end.

(** *** [selectUser]: its only [await] is the one inside [refreshUser]. *)
Definition selectUser_begin (userId : string) (svc : UserService)
  : UserService * Progress unit :=
  if decide (userId = selectedUser (state svc)) then (svc, Return (Resolved ()))
  else refreshUser_begin (with_state (userSelect userId (state svc)) svc).

Definition selectUser_resume := refreshUser_resume.

(** *** [selectGameProfile] *)
Definition selectGameProfile (profileId : string) (svc : UserService)
  : UserService * Outcome unit :=
  match user (state svc) with
  | None => (svc, Resolved ())
  | Some _ =>
      let s := userGameProfileSelect (selectedUser (state svc)) profileId (state svc) in
      (with_state s svc, Resolved ())
  end.

(** *** [removeUserProfile] *)
Definition removeUserProfile (userId : string) (svc : UserService)
  : UserService * Outcome unit :=
  let svc1 :=
    if decide (selectedUser (state svc) = userId) then
      match find (λ u, truthy (selectedProfile u)) (values (users (state svc))) with
      | None => svc
      | Some user => with_state (userSelect (uid user) (state svc)) svc
      end
    else svc in
  (with_state (userProfileRemove userId (state svc1)) svc1, Resolved ()).

(** *** [abortLogin] and [abortRefresh]: [this.xController?.abort()] *)
Definition abortLogin (svc : UserService) : UserService :=
  match loginController svc with
  | Some c => abort c svc
  | None => svc
  end.

Definition abortRefresh (svc : UserService) : UserService :=
  match refreshController svc with
  | Some c => abort c svc
  | None => svc
  end.

(** *** The operations run to completion, nothing else in between *)
Definition login (options : LoginOptions) : UserService → UserService * Outcome UserProfile :=
  run (login_begin options) login_resume id.

Definition uploadSkin (options : UploadSkinOptions) : UserService → UserService * Outcome unit :=
  run (uploadSkin_begin options) uploadSkin_resume id.

Definition refreshUser : UserService → UserService * Outcome unit :=
  run refreshUser_begin refreshUser_resume id.

Definition selectUser (userId : string) : UserService → UserService * Outcome unit :=
  run (selectUser_begin userId) selectUser_resume id.

(** *** The service as a transition system.  An event is one uninterrupted
    piece of a public method; the settlement of a provider call comes with
    the event that resumes the method.  ([saveSkin], [getAccountSystem] and
    [getOfficialUserProfile] write no field of the service and the
    endpoint-list methods write [yggdrasilServices] only; they are not
    events.) *)
Inductive Event : Type :=
| LoginBegin (options : LoginOptions)
| LoginResume (result : Outcome UserProfile)
| UploadSkinBegin (options : UploadSkinOptions)
| UploadSkinResume (result : Outcome UserProfile)
| RefreshUserBegin
| RefreshUserResume (result : Outcome UserProfile)
| SelectUserBegin (userId : string)
| SelectGameProfile (profileId : string)
| RemoveUserProfile (userId : string)
| SetUserProfile (profile : UserProfile)
| RegisterAccountSystem (name : string) (sys : UserAccountSystem)
| AbortLogin
| AbortRefresh.

Definition step (e : Event) (svc : UserService) : UserService :=
  match e with
  | LoginBegin options => (login_begin options svc).1
  | LoginResume result => (login_resume result svc).1
  | UploadSkinBegin options => (uploadSkin_begin options svc).1
  | UploadSkinResume result => (uploadSkin_resume result svc).1
  | RefreshUserBegin => (refreshUser_begin svc).1
  | RefreshUserResume result => (refreshUser_resume result svc).1
  | SelectUserBegin userId => (selectUser_begin userId svc).1
  | SelectGameProfile profileId => (selectGameProfile profileId svc).1
  | RemoveUserProfile userId => (removeUserProfile userId svc).1
  | SetUserProfile profile => (setUserProfile profile svc).1
  | RegisterAccountSystem name sys => registerAccountSystem name sys svc
  | AbortLogin => abortLogin svc
  | AbortRefresh => abortRefresh svc
  end.

(** The states the service can be in after the events [es], oldest first. *)
Definition steps (es : list Event) (svc : UserService) : UserService :=
  foldl (λ s e, step e s) svc es.

End UserService.

Export UserService.

(** ** Predicates on the session state and on runs of the service *)

Module Session.

(** An account whose [selectedProfile] is empty or one of its [profiles]. *)
Definition account_ok (u : UserProfile) : Prop :=
  selectedProfile u = "" ∨ is_Some (profiles u !! selectedProfile u).

(** The selection invariant of the session state. *)
Definition selection_invariant (s : UserState) : Prop :=
  (selectedUser s = "" ∨ is_Some (get (selectedUser s) (users s)))
  ∧ Forall (λ entry, account_ok entry.2) (users s).

(** Every account is stored under its own [id]. *)
Definition keyed_by_id (s : UserState) : Prop :=
  Forall (λ entry, uid entry.2 = entry.1) (users s).

(** What the proofs carry along: the invariant, with every account stored
    under its own id. *)
Definition consistent (s : UserState) : Prop :=
  selection_invariant s ∧ keyed_by_id s.

(** States reached from [svc0] by any events of the service. *)
Inductive reachable (svc0 : UserService) : UserService → Prop :=
| reachable_start : reachable svc0 svc0
| reachable_step e svc : reachable svc0 svc → reachable svc0 (step e svc).

(** An event that hands the service only identifiers it knows and accounts
    that are well formed: [selectUser] an existing account (or none),
    [selectGameProfile] a profile of the selected account (or none), and the
    providers and [setUserProfile] accounts that are [account_ok]. *)
Definition admissible (e : Event) (svc : UserService) : Prop :=
  match e with
  | LoginResume (Resolved p) | UploadSkinResume (Resolved p)
  | RefreshUserResume (Resolved p) | SetUserProfile p => account_ok p
  | SelectUserBegin userId =>
      userId = "" ∨ is_Some (get userId (users (state svc)))
  | SelectGameProfile profileId =>
      profileId = "" ∨
      ∀ u, user (state svc) = Some u → is_Some (profiles u !! profileId)
  | _ => True
  end.

(** States reached from [svc0] by admissible events only. *)
Inductive reachable_admissible (svc0 : UserService) : UserService → Prop :=
| admissible_start : reachable_admissible svc0 svc0
| admissible_step e svc :
    reachable_admissible svc0 svc → admissible e svc →
    reachable_admissible svc0 (step e svc).

(** The controller [c] exists, is not aborted, and is neither the login nor
    the refresh controller. *)
Definition untouched (c : nat) (svc : UserService) : Prop :=
  c < length (controllers svc)
  ∧ aborted c svc = false
  ∧ loginController svc ≠ Some c
  ∧ refreshController svc ≠ Some c.

(** The login and refresh controllers, when set, have been created. *)
Definition controllers_allocated (svc : UserService) : Prop :=
  (∀ c, loginController svc = Some c → c < length (controllers svc))
  ∧ (∀ c, refreshController svc = Some c → c < length (controllers svc)).

(** A provider whose [setSkin] reads nothing of its options but the skin. *)
Definition setSkin_reads_skin_only (sys : UserAccountSystem) : Prop :=
  ∀ u g o1 o2 signal,
    skin o1 = skin o2 → setSkin sys u g o1 signal = setSkin sys u g o2 signal.

End Session.

Export Session.

(** ** Concrete disks, services and providers used as test inputs *)

Import Persistance InstanceLogService.

Module Examples.

(** A disk holding only a legacy file, the second of two legacy paths. *)
Definition legacyDisk : gmap string File :=
  {[ "legacy/user.json" := {| content := [Byte.x7b; Byte.x7d]; readable := true |} ]}.

(** Every path can be written: all directories exist and accept writes. *)
Definition anywhere : string → bool := λ _, true.

(** No path can be written, as on a disk without the directories. *)
Definition nowhere : string → bool := λ _, false.

(** A log service whose encoding worker fails to guess and decodes UTF-8. *)
Definition guesslessEnv : Env :=
  {| instancePath := "/instances/vanilla";
     join := String.concat "/";
     isAbsolute := λ p, bool_decide (String.substring 0 1 p = "/");
     trim := λ p, p;
     fsReadFile := λ _, Resolved [Byte.x68; Byte.x69];
     gunzip := λ _, Rejected (OtherError "incorrect header check");
     guessEncodingByBuffer := λ _, Rejected (OtherError "worker terminated");
     decode := λ _ encoding,
       if decide (encoding = "utf8") then Resolved "hi"
       else Rejected (OtherError "unknown encoding");
     UTF8 := "utf8" |}.

(** An account with one game profile, which is the selected one. *)
Definition account (id profileId : string) : UserProfile :=
  {| uid := id; username := id; authService := "offline";
     profiles := {[ profileId := {| gid := profileId; name := id |} ]};
     selectedProfile := profileId |}.

(** A provider that works offline and honours its abort signal. *)
Definition localSystem : UserAccountSystem :=
  {| AccountSystem.login := λ options signalAborted,
       if signalAborted then Rejected AbortError
       else Resolved (account (loginUsername options) "main");
     refresh := λ user signalAborted,
       if signalAborted then Rejected AbortError else Resolved user;
     setSkin := λ user _ _ signalAborted,
       if signalAborted then Rejected AbortError else Resolved user |}.

(** A provider whose [setSkin] wants the account named in the options. *)
Definition strictSystem : UserAccountSystem :=
  {| AccountSystem.login := AccountSystem.login localSystem;
     refresh := refresh localSystem;
     setSkin := λ user _ options _,
       match userId options with
       | Some _ => Resolved user
       | None => Rejected (OtherError "options.userId is required")
       end |}.

(** A provider whose accounts select a profile they do not have. *)
Definition sloppySystem : UserAccountSystem :=
  {| AccountSystem.login := λ options _,
       Resolved (with_selectedProfile "lost" (account (loginUsername options) "main"));
     refresh := refresh localSystem;
     setSkin := setSkin localSystem |}.

(** A fresh service with no registered provider. *)
Definition fresh : UserService := create ∅ localSystem.

(** Accounts A and B, in this order, A selected. *)
Definition twoAccounts : UserState :=
  {| users := [("A", account "A" "pa"); ("B", account "B" "pb")];
     selectedUser := "A"; clientToken := ""; yggdrasilServices := [] |}.

Definition serviceAB : UserService := with_state twoAccounts fresh.

Definition serviceAB_strict : UserService :=
  with_state twoAccounts (create ∅ strictSystem).

Definition steve : LoginOptions :=
  {| service := "offline"; loginUsername := "steve"; password := "" |}.

Definition skinOnly (sk : option Skin) : UploadSkinOptions :=
  {| gameProfileId := None; userId := None; skin := sk |}.

Definition skinFor (user profile : string) (sk : option Skin) : UploadSkinOptions :=
  {| gameProfileId := Some profile; userId := Some user; skin := sk |}.

End Examples.

Import Examples.

(** ** More of [lib/util/persistance.ts]: writing, and [createSafeIO] *)

Module SafeFile.

(** [ensureFile(path)] of [fs-extra]: creates an empty file where there is
    none and leaves an existing file as it is. *)
Definition ensureFile (path : string) (disk : gmap string File) : gmap string File :=
  match disk !! path with
  | Some _ => disk
  | None => <[path := {| content := []; readable := true |}]> disk
  end.

(** [writeFile(path, data)] of [atomically]: the file is replaced as a whole. *)
Definition writeFile (path : string) (data : Buffer) (disk : gmap string File)
  : gmap string File :=
  <[path := {| content := data; readable := true |}]> disk.

(** [createSafeFile(path, ...).write(data)]:
    [await ensureFile(path); await writeFile(path, await serializer.serialize(data))].
    [serialize] stands for [serializer.serialize], which may throw. *)
Definition write {T : Type} (serialize : T → Outcome Buffer) (path : string)
  (data : T) (disk : gmap string File) : gmap string File * Outcome unit :=
  let disk1 := ensureFile path disk in
  match serialize data with
  | Resolved bytes => (writeFile path bytes disk1, Resolved ())
  | Rejected e => (disk1, Rejected e)
  end.

(** [createSafeIO(schema).write(path, data)]: the same two statements. *)
Definition io_write {T : Type} (serialize : T → Outcome Buffer) (path : string)
  (data : T) (disk : gmap string File) : gmap string File * Outcome unit :=
  let disk1 := ensureFile path disk in
  match serialize data with
  | Resolved bytes => (writeFile path bytes disk1, Resolved ())
  | Rejected e => (disk1, Rejected e)
  end.

(** [createSafeIO(schema).read(path)]: no legacy paths, no copy. *)
Definition io_read {T : Type} (deserialize : Buffer → T) (path : string)
  (disk : gmap string File) : T :=
  deserialize (match readFile path disk with
               | Resolved b => b
               | Rejected _ => []
               end).

End SafeFile.

Import SafeFile.

(** ** The updater that shares the file of [persistance.ts] *)

Module ElectronUpdater.

(** [String.prototype.startsWith] *)
Definition startsWith (s prefix : string) : bool := String.prefix prefix s.

(** [s.substring(n)] *)
Definition substringFrom (n : nat) (s : string) : string :=
  String.substring n (String.length s - n) s.

(** The [url] list of [DownloadAsarUpdateTask]'s constructor; the two CDN
    constants of [@/constant] and [os.platform()] are parameters. *)
Definition asarUrls (AZURE_CDN AZURE_MS_CDN pl version : string) : list string :=
  let version := if startsWith version "v" then substringFrom 1 version else version in
  let platformFlat :=
    if decide (pl = "win32") then "win"
    else if decide (pl = "darwin") then "mac" else "linux" in
  [ AZURE_CDN +:+ "/app-" +:+ version +:+ "-" +:+ platformFlat +:+ ".asar";
    AZURE_MS_CDN +:+ "/app-" +:+ version +:+ "-" +:+ platformFlat +:+ ".asar" ].

(** What the validator of [DownloadAsarUpdateTask] talks to: [stat(file)]
    (the size), [request(url, { throwOnError: true })] with the
    [response.body.text()] of a response, and [checksum(file, 'sha256')]. *)
Record ValidatorEnv : Type := {
  statSize : string → Outcome N;
  request : string → Outcome (Outcome string);
  checksum : string → Outcome string;
}.

(** [validate(file, url)].  The variable [sha256] of the constructor outlives
    the call: it is an argument and, with the outcome, a result. *)
Definition validate (env : ValidatorEnv) (sha256 file url : string)
  : string * Outcome unit :=
  let missed :=
    match statSize env file with
    | Resolved size => bool_decide (size = 0%N)
    | Rejected _ => false
    end in
  if missed then (sha256, Resolved ())
  else
    let fetched :=
      if negb (truthy sha256)
      then response ← request env (url +:+ ".sha256"); catch response ""
      else Resolved sha256 in
    match fetched with
    | Rejected e => (sha256, Rejected e)
    | Resolved sha256 =>
        if negb (truthy sha256) || negb (bool_decide (String.length sha256 = 64))
        then (sha256, Resolved ())
        else
          match checksum env file with
          | Rejected e => (sha256, Rejected e)
          | Resolved actual =>
              if bool_decide (sha256 ≠ actual)
              then (sha256, Rejected (OtherError "ChecksumNotMatchError"))
              else (sha256, Resolved ())
          end
    end.

(** The JSON of the self-hosted release service. *)
Record Asset : Type := { browser_download_url : string; asset_name : string }.

Record LatestRelease : Type := {
  tag_name : string;
  release_body : string;
  published_at : string;
  assets : list Asset;
}.

Record ReleaseFile : Type := { file_url : string; file_name : string }.

(** [ReleaseInfo] of [@xmcl/runtime-api]. *)
Record ReleaseInfo : Type := {
  release_name : string;             (* [name] *)
  body : string;
  date : string;
  files : list ReleaseFile;
  newUpdate : bool;
  useAutoUpdater : bool;
  incremental : bool;
}.

(** [getUpdateFromSelfHost()] from the parsed response on: [version] is
    [app.version] and [platformName] is [app.platform.name]. *)
Definition getUpdateFromSelfHost (version platformName : string)
  (result : LatestRelease) : ReleaseInfo :=
  let name := tag_name result in
  let files :=
    (λ a, {| file_url := browser_download_url a; file_name := asset_name a |})
      <$> assets result in
  let newUpdate := bool_decide ("v" +:+ version ≠ name) in
  let platformString :=
    if decide (platformName = "windows") then "win"
    else if decide (platformName = "osx") then "mac" else "linux" in
  let version := if startsWith name "v" then substringFrom 1 name else name in
  let incremental :=
    existsb (λ f, bool_decide
                    (file_name f
                     = "app-" +:+ version +:+ "-" +:+ platformString +:+ ".asar"))
      files in
  {| release_name := name; body := release_body result;
     date := published_at result; files := files;
     newUpdate := newUpdate; useAutoUpdater := false;
     incremental := incremental |}.

(** The three tasks [downloadUpdateTask] chooses from. *)
Inductive UpdateTask : Type :=
| DownloadAppInstallerTask
| DownloadAsarUpdateTask (destination version : string)
| DownloadFullUpdateTask.

(** [downloadUpdateTask(updateInfo)]; [env] is [app.env] and [pendingUpdate]
    is [join(app.appDataPath, 'pending_update')]. *)
Definition downloadUpdateTask (env pendingUpdate : string) (updateInfo : ReleaseInfo)
  : UpdateTask :=
  if decide (env = "appx") then DownloadAppInstallerTask
  else if incremental updateInfo && bool_decide (env = "raw")
  then DownloadAsarUpdateTask pendingUpdate (release_name updateInfo)
  else DownloadFullUpdateTask.

(** What [installUpdateAndQuit] goes on to do. *)
Inductive Install : Type :=
| SkipInstall
| QuitAndInstallAsar
| AutoUpdaterQuitAndInstall.

(** [installUpdateAndQuit(updateInfo)] *)
Definition installUpdateAndQuit (IS_DEV : bool) (updateInfo : ReleaseInfo) : Install :=
  if IS_DEV then SkipInstall
  else if incremental updateInfo then QuitAndInstallAsar
  else AutoUpdaterQuitAndInstall.

(** [rename(src, dst)] of [original-fs]: moves the file, replacing [dst].
    It rejects when there is no file at [src], and when the move is refused
    with the file in place: [movable src dst] tells whether the process can
    move a file from [src] to [dst] (both on one file system, in directories
    that accept the change). *)
Definition rename (movable : string → string → bool) (src dst : string)
  (disk : gmap string File) : Outcome (gmap string File) :=
  match disk !! src with
  | Some f =>
      if movable src dst then Resolved (<[dst := f]> (delete src disk))
      else Rejected (OtherError "EXDEV")
  | None => Rejected (OtherError "ENOENT")
  end.

(** [unlink(path)] *)
Definition unlink (path : string) (disk : gmap string File)
  : Outcome (gmap string File) :=
  match disk !! path with
  | Some _ => Resolved (delete path disk)
  | None => Rejected (OtherError "ENOENT")
  end.

(** [somePromise.catch(() => { })] on a file operation: the disk is the one
    the operation leaves, or the one before when it failed. *)
Definition ignoring (disk : gmap string File) (op : Outcome (gmap string File))
  : gmap string File :=
  match op with
  | Resolved disk' => disk'
  | Rejected _ => disk
  end.

(** The branch of [quitAndInstallAsar()] for platforms other than Windows.
    The result is the disk, whether [app.relaunch()] was called, and the
    settlement of the method. *)
Definition quitAndInstallAsar (movable : string → string → bool)
  (appAsarPath updateAsarPath : string) (disk : gmap string File)
  : gmap string File * bool * Outcome unit :=
  let disk1 :=
    ignoring disk (rename movable appAsarPath (appAsarPath +:+ ".bk") disk) in
  match rename movable updateAsarPath appAsarPath disk1 with
  | Resolved disk2 =>
      let disk3 := ignoring disk2 (unlink (appAsarPath +:+ ".bk") disk2) in
      (disk3, true, Resolved ())
  | Rejected _ =>
      match rename movable (appAsarPath +:+ ".bk") appAsarPath disk1 with
      | Resolved disk2 => (disk2, false, Resolved ())
      | Rejected e => (disk1, false, Rejected e)
      end
  end.

End ElectronUpdater.

(** ** More of [lib/services/InstanceLogService.ts] *)

Module InstanceLogFiles.

(** [removeLog(name)]: [await unlink(join(path, 'logs', name))], on the disk. *)
Definition removeLog (env : Env) (name : string) (disk : gmap string File)
  : Outcome (gmap string File) :=
  let filePath := join env [instancePath env; "logs"; name] in
  ElectronUpdater.unlink filePath disk.

(** [removeCrashReport(name)] *)
Definition removeCrashReport (env : Env) (name : string) (disk : gmap string File)
  : Outcome (gmap string File) :=
  let filePath := join env [instancePath env; "crash-reports"; name] in
  ElectronUpdater.unlink filePath disk.

(** The collaborators [env] with [readFile] reading from [disk]. *)
Definition onDisk (env : Env) (disk : gmap string File) : Env :=
  {| instancePath := instancePath env; join := join env;
     isAbsolute := isAbsolute env; trim := trim env;
     fsReadFile := λ filePath, readFile filePath disk;
     gunzip := gunzip env;
     guessEncodingByBuffer := guessEncodingByBuffer env;
     decode := decode env; UTF8 := UTF8 env |}.

End InstanceLogFiles.

Import InstanceLogFiles.

(** ** More of [lib/services/UserService.ts] *)

Module UserEndpoints.

Definition with_yggdrasilServices (apis : list YggdrasilApi) (s : UserState)
  : UserState :=
  {| users := users s; selectedUser := selectedUser s;
     clientToken := clientToken s; yggdrasilServices := apis |}.

(** Modelled from the spec: the mutation [userYggdrasilServices] of
    [UserState] (declared in [@xmcl/runtime-api], not among the sources at
    hand), which changes the endpoint list to the one given. *)
Definition userYggdrasilServices (apis : list YggdrasilApi) (s : UserState)
  : UserState :=
  with_yggdrasilServices apis s.

(** What [addYggdrasilAccountSystem] relies on: [decodeURIComponent],
    [new URL(url).host], [loadYggdrasilApiProfile] of [entities/user] and
    the mutation [userYggdrasilServicePut] of [UserState]. *)
Record EndpointEnv : Type := {
  decodeURIComponent : string → Outcome string;
  urlHost : string → Outcome string;
  loadYggdrasilApiProfile : string → Outcome YggdrasilApi;
  userYggdrasilServicePut : YggdrasilApi → UserState → UserState;
}.

(** [addYggdrasilAccountSystem(url)] *)
Definition addYggdrasilAccountSystem (env : EndpointEnv) (url : string)
  (svc : UserService) : UserService * Outcome unit :=
  let url :=
    if ElectronUpdater.startsWith url "authlib-injector:"
    then ElectronUpdater.substringFrom (String.length "authlib-injector:") url
    else url in
  let url :=
    if ElectronUpdater.startsWith url "yggdrasil-server:"
    then ElectronUpdater.substringFrom (String.length "yggdrasil-server:") url
    else url in
  match (url ← decodeURIComponent env url;
         domain ← urlHost env url;
         loadYggdrasilApiProfile env url) with
  | Resolved api =>
      (with_state (userYggdrasilServicePut env api (state svc)) svc, Resolved ())
  | Rejected e => (svc, Rejected e)
  end.

(** [removeYggdrasilAccountSystem(url)] *)
Definition removeYggdrasilAccountSystem (url : string) (svc : UserService)
  : UserService * Outcome unit :=
  let all := yggdrasilServices (state svc) in
  let kept := List.filter (λ a, bool_decide (UserState.url a ≠ url)) all in
  (with_state (userYggdrasilServices kept (state svc)) svc, Resolved ()).

(** What the read of the registry finds at a name that is not registered
    but [inherited]: a member of [Object.prototype].  It has none of the
    three methods of a provider, so that calling one throws a [TypeError]. *)
Definition notAProvider : UserAccountSystem :=
  {| AccountSystem.login := λ _ _,
       Rejected (TypeError "system.login is not a function");
     refresh := λ _ _,
       Rejected (TypeError "system.refresh is not a function");
     setSkin := λ _ _ _ _,
       Rejected (TypeError "sys.setSkin is not a function") |}.

(** [getAccountSystem(service)]: [this.accountSystems[service]], which is
    the registered provider, else the inherited member, else [undefined]. *)
Definition getAccountSystem (service : string) (svc : UserService)
  : option UserAccountSystem :=
  match accountSystems svc !! service with
  | Some sys => Some sys
  | None => if inherited service then Some notAProvider else None
  end.

(** [getOfficialUserProfile()]; [tokenStorageGet] is [this.tokenStorage.get].
    The controller is local to the call.  The result pairs the account with
    its [accessToken]. *)
Definition getOfficialUserProfile
  (tokenStorageGet : UserProfile → Outcome (option string)) (svc : UserService)
  : UserService * Outcome (option (UserProfile * option string)) :=
  let official :=
    find (λ u, bool_decide (authService u = "microsoft"))
      (values (users (state svc))) in
  match official with
  | Some official =>
      let '(c, svc1) := newAbortController svc in
      (svc1,
       _ ← match accountSystems svc1 !! "microsoft" with
           | Some sys => _ ← refresh sys official (aborted c svc1); mret ()
           | None => mret ()
           end;
       accessToken ← tokenStorageGet official;
       mret (Some (official, accessToken)))
  | None => (svc, Resolved None)
  end.

End UserEndpoints.

Import UserEndpoints.

(** ** The service at rest *)

Module Idle.

(** No operation is waiting for a provider: the three controller fields
    are [undefined]. *)
Definition idle (svc : UserService) : Prop :=
  loginController svc = None
  ∧ refreshController svc = None
  ∧ setSkinController svc = None.

End Idle.

Import Idle.

(** ** Further test inputs *)

Module MoreExamples.

Import ElectronUpdater.

(** A checksum of 64 characters. *)
Definition sha : string :=
  "e3b0c44298fc1c149afbf4c8996fb92427ae41e4649b934ca495991b7852b855".

(** A download whose checksum file is an error page and whose own checksum
    is [sha]. *)
Definition errorPageEnv : ValidatorEnv :=
  {| statSize := λ _, Resolved 4096%N;
     request := λ _, Resolved (Resolved "<html>404</html>");
     checksum := λ _, Resolved sha |}.

(** The release [v0.30.0] with an asar for Linux and an installer. *)
Definition release030 : LatestRelease :=
  {| tag_name := "v0.30.0"; release_body := ""; published_at := "2022-10-01";
     assets :=
       [ {| browser_download_url := "https://example.org/xmcl-0.30.0.exe";
            asset_name := "xmcl-0.30.0.exe" |};
         {| browser_download_url := "https://example.org/app-0.30.0-linux.asar";
            asset_name := "app-0.30.0-linux.asar" |} ] |}.

(** A provider that accepts logins and rejects everything else. *)
Definition expiredSystem : UserAccountSystem :=
  {| AccountSystem.login := AccountSystem.login localSystem;
     refresh := λ _ _, Rejected (OtherError "invalid token");
     setSkin := λ _ _ _ _, Rejected (OtherError "invalid token") |}.

Definition serviceAB_expired : UserService :=
  with_state twoAccounts (create ∅ expiredSystem).

(** The account of a Microsoft login. *)
Definition official : UserProfile :=
  {| uid := "M"; username := "alex"; authService := "microsoft";
     profiles := {[ "pm" := {| gid := "pm"; name := "alex" |} ]};
     selectedProfile := "pm" |}.

(** Accounts A and M with the provider [expiredSystem] registered for
    Microsoft accounts. *)
Definition serviceAM : UserService :=
  registerAccountSystem "microsoft" expiredSystem
    (with_state
       {| users := [("A", account "A" "pa"); ("M", official)];
          selectedUser := "A"; clientToken := "";
          yggdrasilServices := [ {| url := "https://littleskin.cn/api/yggdrasil" |} ] |}
       fresh).

(** An endpoint loader that accepts every address as it is. *)
Definition plainEndpoints : EndpointEnv :=
  {| decodeURIComponent := λ u, Resolved u;
     urlHost := λ u, Resolved u;
     loadYggdrasilApiProfile := λ u, Resolved {| url := u |};
     userYggdrasilServicePut := λ api s,
       with_yggdrasilServices (yggdrasilServices s ++ [api]) s |}.

(** A disk with the application and a pending update. *)
Definition appAndUpdate : gmap string File :=
  {[ "app.asar" := {| content := [Byte.x31]; readable := true |};
     "pending_update" := {| content := [Byte.x32]; readable := true |} ]}.

(** All paths on one file system, in directories the process can change. *)
Definition oneFileSystem : string → string → bool := λ _ _, true.

(** The pending update lies on another file system than the application. *)
Definition updateElsewhere : string → string → bool :=
  λ src dst,
    negb (bool_decide (src = "pending_update") || bool_decide (dst = "pending_update")).

End MoreExamples.

Import MoreExamples.

(** * Theorems *)

(** ** The file store *)

Section createSafeFile.

Context {T : Type} (writable : string → bool) (deserialize : Buffer → T)
  (path : string).

Implicit Types (disk : gmap string File) (legacyPaths : list string).

(** A copy succeeds when the source can be read and the destination can be
    written, and only then. *)
Lemma copyable_spec disk p :
  copyable writable path disk p = true
  ↔ writable path = true ∧ ∃ f, disk !! p = Some f ∧ readable f = true.
Proof.
  unfold copyable, copyFile, readFile. destruct (disk !! p) as [f|] eqn:E.
  - destruct (readable f) eqn:R; simpl.
    + destruct (writable path); simpl; split; try done.
      * eauto.
      * by intros [? _].
    + split; [done|]. intros (_ & g & [= <-] & ?). congruence.
  - simpl. split; [done | by intros (_ & f & ? & _)].
Qed.

Lemma copyFile_copyable disk p f :
  disk !! p = Some f → readable f = true → writable path = true →
  copyFile writable p path disk
  = Resolved (<[path := {| content := content f; readable := true |}]> disk).
Proof. intros E R W. unfold copyFile, readFile. by rewrite E, R, W. Qed.

Lemma copyFile_not_copyable disk p :
  copyable writable path disk p = false →
  ∃ e, copyFile writable p path disk = Rejected e.
Proof.
  unfold copyable. destruct (copyFile writable p path disk) as [b|e]; [done | eauto].
Qed.

(** No copy succeeds when the destination cannot be written. *)
Lemma not_writable_not_copyable disk legacyPaths :
  writable path = false →
  Forall (λ q, copyable writable path disk q = false) legacyPaths.
Proof.
  intros W. apply Forall_forall. intros q _.
  destruct (copyable writable path disk q) eqn:C; [|done].
  apply copyable_spec in C as [W' _]. congruence.
Qed.

(** The loop stops at the first legacy path it can copy. *)
Lemma migrate_first disk l1 p l2 f :
  Forall (λ q, copyable writable path disk q = false) l1 →
  disk !! p = Some f → readable f = true → writable path = true →
  migrate writable path (l1 ++ p :: l2) disk
  = (<[path := {| content := content f; readable := true |}]> disk, [(p, path)]).
Proof.
  intros Hl1 E R W. induction Hl1 as [|q l1 Hq _ IH]; simpl.
  - by rewrite (copyFile_copyable _ _ _ E R W).
  - destruct (copyFile_not_copyable _ _ Hq) as [e ->]. exact IH.
Qed.

Lemma migrate_none disk legacyPaths :
  Forall (λ q, copyable writable path disk q = false) legacyPaths →
  migrate writable path legacyPaths disk = (disk, []).
Proof.
  induction 1 as [|q l Hq _ IH]; simpl; [done|].
  by destruct (copyFile_not_copyable _ _ Hq) as [e ->].
Qed.

(** Whatever the legacy paths are, the loop copies nothing or one file. *)
Lemma migrate_cases disk legacyPaths :
  migrate writable path legacyPaths disk = (disk, [])
  ∨ ∃ p f, disk !! p = Some f ∧ readable f = true
      ∧ migrate writable path legacyPaths disk
        = (<[path := {| content := content f; readable := true |}]> disk, [(p, path)]).
Proof.
  induction legacyPaths as [|q l IH]; simpl; [by left|].
  destruct (copyable writable path disk q) eqn:C.
  - apply copyable_spec in C as (W & f & E & R). right. exists q, f.
    by rewrite (copyFile_copyable _ _ _ E R W).
  - by destruct (copyFile_not_copyable _ _ C) as [e ->].
Qed.

Lemma missing_true disk : missing path disk = true ↔ disk !! path = None.
Proof. unfold missing. apply bool_decide_eq_true. Qed.

Lemma missing_false disk : missing path disk = false ↔ is_Some (disk !! path).
Proof.
  unfold missing. rewrite bool_decide_eq_false. by rewrite <- not_eq_None_Some.
Qed.

(** A read that finds the primary path in place touches nothing. *)
Lemma read_present legacyPaths disk :
  missing path disk = false →
  read writable deserialize path legacyPaths disk
  = {| document :=
         deserialize (match readFile path disk with
                      | Resolved b => b | Rejected _ => [] end);
       disk_after := disk; copies := [] |}.
Proof. intros M. unfold read. by rewrite M. Qed.

(** A read that finds nothing to copy decodes the empty buffer. *)
Lemma read_nothing_copied legacyPaths disk :
  missing path disk = true →
  migrate writable path legacyPaths disk = (disk, []) →
  read writable deserialize path legacyPaths disk
  = {| document := deserialize []; disk_after := disk; copies := [] |}.
Proof.
  intros M E. unfold read. rewrite M, E. simpl.
  apply missing_true in M. unfold readFile. by rewrite M.
Qed.

(** A read that copies a legacy file decodes the bytes of that file. *)
Lemma read_copied legacyPaths disk p f :
  missing path disk = true →
  migrate writable path legacyPaths disk
  = (<[path := {| content := content f; readable := true |}]> disk, [(p, path)]) →
  read writable deserialize path legacyPaths disk
  = {| document := deserialize (content f);
       disk_after := <[path := {| content := content f; readable := true |}]> disk;
       copies := [(p, path)] |}.
Proof.
  intros M E. unfold read. rewrite M, E. simpl.
  unfold readFile. by rewrite lookup_insert_eq.
Qed.

(** C5: when the primary path is missing, [read] walks the legacy paths in
    order and copies the first one that can be copied, skipping those whose
    copy fails.  A legacy path can be copied when it holds a readable file
    and the primary path can be written: [copyFile] creates no directory, so
    where the primary path cannot be written every copy fails.  When nothing
    can be copied the document is decoded from the empty buffer; the copy is
    made at most once, a second [read] returns the same document and copies
    nothing; no file that was on disk is removed or changed by [read]. *)
Theorem read_legacy_migration (legacyPaths : list string) (disk : gmap string File) :
  let r1 := read writable deserialize path legacyPaths disk in
  let r2 := read writable deserialize path legacyPaths (disk_after r1) in
  (missing path disk = false → disk_after r1 = disk ∧ copies r1 = [])
  ∧ (∀ p, copyable writable path disk p = true
          ↔ writable path = true ∧ ∃ f, disk !! p = Some f ∧ readable f = true)
  ∧ (∀ l1 p l2 f,
        missing path disk = true →
        legacyPaths = (l1 ++ p :: l2) →
        Forall (λ q, copyable writable path disk q = false) l1 →
        copyable writable path disk p = true →
        disk !! p = Some f →
        disk_after r1 = <[path := {| content := content f; readable := true |}]> disk
        ∧ copies r1 = [(p, path)]
        ∧ document r1 = deserialize (content f))
  ∧ (missing path disk = true →
     Forall (λ q, copyable writable path disk q = false) legacyPaths →
     disk_after r1 = disk ∧ copies r1 = [] ∧ document r1 = deserialize [])
  ∧ (missing path disk = true → writable path = false →
     disk_after r1 = disk ∧ copies r1 = [] ∧ document r1 = deserialize [])
  ∧ (document r2 = document r1 ∧ disk_after r2 = disk_after r1
     ∧ copies r2 = [] ∧ length (copies r1) ≤ 1)
  ∧ (∀ p f, disk !! p = Some f → disk_after r1 !! p = Some f).
Proof.
  intros r1 r2.
  assert (Hsecond : document r2 = document r1 ∧ disk_after r2 = disk_after r1
                    ∧ copies r2 = [] ∧ length (copies r1) ≤ 1).
  { subst r1 r2. destruct (missing path disk) eqn:M.
    - destruct (migrate_cases disk legacyPaths) as [E | (p & f & _ & _ & E)].
      + repeat (rewrite (read_nothing_copied _ _ M E); simpl). auto.
      + rewrite !(read_copied _ _ _ _ M E). simpl.
        rewrite read_present.
        * simpl. unfold readFile. rewrite lookup_insert_eq. simpl. auto.
        * apply missing_false. rewrite lookup_insert_eq. eauto.
    - repeat (rewrite (read_present _ _ M); simpl). auto. }
  subst r1 r2. split; [|split; [|split; [|split; [|split; [|split]]]]].
  - intros M. by rewrite (read_present _ _ M).
  - intros p. apply copyable_spec.
  - intros l1 p l2 f M -> Hl1 C E.
    apply copyable_spec in C as (W & g & Eg & R).
    assert (g = f) as -> by congruence.
    by rewrite (read_copied _ _ p f M (migrate_first _ _ _ _ _ Hl1 E R W)).
  - intros M Hall.
    by rewrite (read_nothing_copied _ _ M (migrate_none _ _ Hall)).
  - intros M W.
    by rewrite (read_nothing_copied _ _ M
                  (migrate_none _ _ (not_writable_not_copyable _ _ W))).
  - exact Hsecond.
  - intros p f E. destruct (missing path disk) eqn:M.
    + destruct (migrate_cases disk legacyPaths) as [Em | (q & g & _ & _ & Em)].
      * by rewrite (read_nothing_copied _ _ M Em).
      * rewrite (read_copied _ _ _ _ M Em). simpl.
        apply missing_true in M. rewrite lookup_insert_ne; [done|]. congruence.
    + by rewrite (read_present _ _ M).
Qed.

End createSafeFile.

(** The theorem at [legacyDisk].  Where the primary path can be written, the
    first legacy path is absent, the second is copied to the primary path
    and decoded; where it cannot, as when its directory does not exist,
    nothing is copied and the empty buffer is decoded. *)
Lemma read_legacy_migration_witness :
  let r1 := read anywhere (λ b, b) "appdata/user.json"
              ["gone/user.json"; "legacy/user.json"] legacyDisk in
  let r0 := read nowhere (λ b, b) "appdata/user.json"
              ["gone/user.json"; "legacy/user.json"] legacyDisk in
  (disk_after r1
   = <["appdata/user.json" := {| content := [Byte.x7b; Byte.x7d]; readable := true |}]>
       legacyDisk
   ∧ copies r1 = [("legacy/user.json", "appdata/user.json")]
   ∧ document r1 = [Byte.x7b; Byte.x7d])
  ∧ (disk_after r0 = legacyDisk ∧ copies r0 = [] ∧ document r0 = []).
Proof.
  split.
  - refine (proj1 (proj2 (proj2 (read_legacy_migration anywhere (λ b, b)
              "appdata/user.json"
              ["gone/user.json"; "legacy/user.json"] legacyDisk)))
            ["gone/user.json"] "legacy/user.json" []
            {| content := [Byte.x7b; Byte.x7d]; readable := true |} _ _ _ _ _).
    + vm_compute. reflexivity.
    + reflexivity.
    + constructor; [vm_compute; reflexivity | constructor].
    + vm_compute. reflexivity.
    + vm_compute. reflexivity.
  - refine (proj1 (proj2 (proj2 (proj2 (proj2 (read_legacy_migration nowhere
              (λ b, b) "appdata/user.json"
              ["gone/user.json"; "legacy/user.json"] legacyDisk))))) _ _).
    + vm_compute. reflexivity.
    + reflexivity.
Defined.

(** ** Logs and crash reports *)

Section InstanceLogService.

Context (env : Env).

Lemma getLogContent_total name : ∃ text, getLogContent env name = Resolved text.
Proof.
  unfold getLogContent.
  match goal with |- ∃ _, catch ?m _ = _ => destruct m as [text|e] end;
    simpl; eauto.
Qed.

(** C10, as the code has it: [getLogContent] never rejects; it resolves to
    the empty string when the read, the gunzip or the decoding fails; a
    failed encoding detection is not such a failure: the content is then
    decoded as [UTF8] and returned.  [getCrashReportContent] rejects with
    the error of a failed read or a failed gunzip. *)
Theorem log_readers_failures (name : string) :
  let logPath := join env [instancePath env; "logs"; name] in
  let crashPath :=
    trim env (if isAbsolute env name then name
              else join env [instancePath env; "crash-reports"; name]) in
  let inflate raw := if endsWith name ".gz" then gunzip env raw else Resolved raw in
  (∃ text, getLogContent env name = Resolved text)
  ∧ (∀ e, fsReadFile env logPath = Rejected e →
          getLogContent env name = Resolved "")
  ∧ (∀ raw e, fsReadFile env logPath = Resolved raw →
          endsWith name ".gz" = true → gunzip env raw = Rejected e →
          getLogContent env name = Resolved "")
  ∧ (∀ raw buf e, fsReadFile env logPath = Resolved raw →
          inflate raw = Resolved buf →
          decode env buf (orUTF8 env (match guessEncodingByBuffer env buf with
                                      | Resolved enc => enc | Rejected _ => None end))
          = Rejected e →
          getLogContent env name = Resolved "")
  ∧ (∀ raw buf e, fsReadFile env logPath = Resolved raw →
          inflate raw = Resolved buf →
          guessEncodingByBuffer env buf = Rejected e →
          getLogContent env name
          = catch (decode env buf (UTF8 env)) "")
  ∧ (∀ e, fsReadFile env crashPath = Rejected e →
          getCrashReportContent env name = Rejected e)
  ∧ (∀ raw e, fsReadFile env crashPath = Resolved raw →
          endsWith name ".gz" = true → gunzip env raw = Rejected e →
          getCrashReportContent env name = Rejected e).
Proof.
  intros logPath crashPath inflate.
  split; [apply getLogContent_total|].
  unfold getLogContent, getCrashReportContent.
  fold logPath. fold crashPath.
  repeat split.
  - intros e E. rewrite E. reflexivity.
  - intros raw e E G U. rewrite E. simpl. rewrite G, U. reflexivity.
  - intros raw buf e E I D. rewrite E. simpl. subst inflate. simpl in I.
    change (@mret Outcome _ Buffer raw) with (Resolved raw). rewrite I. simpl.
    destruct (guessEncodingByBuffer env buf) as [enc|e']; simpl;
      simpl in D; rewrite D; reflexivity.
  - intros raw buf e E I G. rewrite E. simpl. subst inflate. simpl in I.
    change (@mret Outcome _ Buffer raw) with (Resolved raw). rewrite I. simpl.
    rewrite G. simpl. destruct (decode env buf (UTF8 env)); reflexivity.
  - intros e E. rewrite E. reflexivity.
  - intros raw e E G U. rewrite E. simpl. rewrite G, U. reflexivity.
Qed.

End InstanceLogService.

(** C10 as stated fails: the encoding detection fails and [getLogContent]
    still returns the content of the log, not the empty string. *)
Lemma getLogContent_guess_failure_returns_content :
  isRejected (guessEncodingByBuffer guesslessEnv [Byte.x68; Byte.x69]) = true
  ∧ getLogContent guesslessEnv "latest.log" = Resolved "hi"
  ∧ "hi" ≠ "".
Proof. split; [reflexivity | split; [vm_compute; reflexivity | done]]. Qed.

(** The theorem at [guesslessEnv]: a plain log is decoded as UTF-8 after the
    failed guess, and a gzipped crash report that cannot be inflated makes
    [getCrashReportContent] reject. *)
Lemma log_readers_failures_witness :
  getLogContent guesslessEnv "latest.log" = catch (Resolved "hi") ""
  ∧ getCrashReportContent guesslessEnv "crash-1.txt.gz"
    = Rejected (OtherError "incorrect header check").
Proof.
  split.
  - exact (proj1 (proj2 (proj2 (proj2 (proj2
            (log_readers_failures guesslessEnv "latest.log")))))
            [Byte.x68; Byte.x69] [Byte.x68; Byte.x69]
            (OtherError "worker terminated") eq_refl eq_refl eq_refl).
  - exact (proj2 (proj2 (proj2 (proj2 (proj2 (proj2
            (log_readers_failures guesslessEnv "crash-1.txt.gz"))))))
            [Byte.x68; Byte.x69] (OtherError "incorrect header check")
            eq_refl eq_refl eq_refl).
Defined.

(** ** Objects as ordered association lists *)

Section Obj.

Context {V : Type}.

Implicit Types (o : Obj V) (k : string) (v : V).

Lemma get_set_eq o k v : get k (set k v o) = Some v.
Proof.
  induction o as [|[k' v'] o IH]; simpl.
  - by rewrite decide_True.
  - destruct (decide (k' = k)) as [->|Hne]; simpl.
    + by rewrite decide_True.
    + by rewrite decide_False.
Qed.

Lemma get_set_ne o k k' v : k ≠ k' → get k' (set k v o) = get k' o.
Proof.
  intros Hne. induction o as [|[k0 v0] o IH]; simpl.
  - by rewrite decide_False.
  - destruct (decide (k0 = k)) as [->|Hne0]; simpl.
    + by rewrite !decide_False.
    + by rewrite IH.
Qed.

Lemma get_del_eq o k : get k (del k o) = None.
Proof.
  induction o as [|[k' v'] o IH]; simpl; [done|].
  destruct (decide (k' = k)); simpl; [done|]. by rewrite decide_False.
Qed.

Lemma get_del_ne o k k' : k ≠ k' → get k' (del k o) = get k' o.
Proof.
  intros Hne. induction o as [|[k0 v0] o IH]; simpl; [done|].
  destruct (decide (k0 = k)) as [->|Hne0]; simpl.
  - by rewrite decide_False.
  - by rewrite IH.
Qed.

Lemma Forall_set (P : string * V → Prop) o k v :
  P (k, v) → Forall P o → Forall P (set k v o).
Proof.
  intros Hkv. induction 1 as [|[k' v'] o Hx Ho IH]; simpl.
  - by repeat constructor.
  - destruct (decide (k' = k)); by constructor.
Qed.

Lemma Forall_del (P : string * V → Prop) o k : Forall P o → Forall P (del k o).
Proof.
  induction 1 as [|[k' v'] o Hx _ IH]; simpl; [done|].
  destruct (decide (k' = k)); [done | by constructor].
Qed.

Lemma get_Some_elem o k v : get k o = Some v → (k, v) ∈ o.
Proof.
  induction o as [|[k' v'] o IH]; simpl; [done|].
  destruct (decide (k' = k)) as [->|Hne].
  - intros [= ->]. left.
  - intros E. right. by apply IH.
Qed.

Lemma elem_get_is_Some o k v : (k, v) ∈ o → is_Some (get k o).
Proof.
  induction o as [|[k' v'] o IH]; simpl.
  - by intros ?%elem_of_nil.
  - intros [[= -> ->]|Hin]%elem_of_cons.
    + rewrite decide_True; eauto.
    + destruct (decide (k' = k)); eauto.
Qed.

Lemma elem_values o v : v ∈ values o → ∃ k, (k, v) ∈ o.
Proof.
  unfold values. intros ([k v'] & -> & Hin)%list_elem_of_fmap. eauto.
Qed.

Lemma find_Some_elem {A : Type} (p : A → bool) (l : list A) x :
  find p l = Some x → x ∈ l ∧ p x = true.
Proof.
  induction l as [|y l IH]; simpl; [done|].
  destruct (p y) eqn:E.
  - intros [= ->]. split; [left | done].
  - intros [Hin Hp]%IH. split; [by right | done].
Qed.

End Obj.

(** ** The selection invariant *)

Section SelectionInvariant.

Implicit Types (s : UserState) (svc : UserService) (p u : UserProfile).

Lemma userProfile_consistent p s :
  account_ok p → consistent s → consistent (userProfile p s).
Proof.
  intros Hp [[Hsel Hall] Hkey]. repeat split; simpl.
  - destruct Hsel as [->|Hsome]; [by left|]. right.
    destruct (decide (uid p = selectedUser s)) as [->|Hne].
    + rewrite get_set_eq. eauto.
    + by rewrite get_set_ne.
  - by apply Forall_set.
  - by apply Forall_set.
Qed.

Lemma userSelect_consistent userId s :
  userId = "" ∨ is_Some (get userId (users s)) →
  consistent s → consistent (userSelect userId s).
Proof. intros Hid [[_ Hall] Hkey]. by repeat split. Qed.

Lemma userProfile_userSelect_consistent p s :
  account_ok p → consistent s →
  consistent (userSelect (uid p) (userProfile p s)).
Proof.
  intros Hp Hs. apply userSelect_consistent.
  - right. simpl. rewrite get_set_eq. eauto.
  - by apply userProfile_consistent.
Qed.

Lemma userGameProfileSelect_consistent profileId s :
  (profileId = "" ∨ ∀ u, user s = Some u → is_Some (profiles u !! profileId)) →
  consistent s →
  consistent (userGameProfileSelect (selectedUser s) profileId s).
Proof.
  intros Hpid Hs. unfold userGameProfileSelect.
  destruct (get (selectedUser s) (users s)) as [u|] eqn:E; [|done].
  destruct Hs as [[Hsel Hall] Hkey]. repeat split; simpl.
  - right. rewrite get_set_eq. eauto.
  - apply Forall_set; [|done]. unfold account_ok. simpl.
    destruct Hpid as [->|Hprof]; [by left|]. right. by apply Hprof.
  - apply Forall_set; [|done]. simpl.
    apply get_Some_elem in E.
    by apply (proj1 (Forall_forall _ _) Hkey _ E).
Qed.

Lemma userProfileRemove_consistent userId s :
  consistent s → consistent (userProfileRemove userId s).
Proof.
  intros [[Hsel Hall] Hkey]. unfold userProfileRemove.
  destruct (decide (selectedUser s = userId)) as [E|Hne];
    repeat split; simpl; try (by apply Forall_del); [by left|].
  destruct Hsel as [->|Hsome]; [by left|]. right. by rewrite get_del_ne.
Qed.

(** The account [removeUserProfile] finds among the values is stored under
    the id it then selects. *)
Lemma found_user_is_key s u :
  keyed_by_id s →
  find (λ u, truthy (selectedProfile u)) (values (users s)) = Some u →
  is_Some (get (uid u) (users s)).
Proof.
  intros Hkey [Hin _]%find_Some_elem.
  apply elem_values in Hin as [k Hin].
  pose proof (proj1 (Forall_forall _ _) Hkey _ Hin) as Hk. simpl in Hk.
  subst k. by eapply elem_get_is_Some.
Qed.

Lemma removeUserProfile_consistent userId svc :
  consistent (state svc) → consistent (state (removeUserProfile userId svc).1).
Proof.
  intros Hs. unfold removeUserProfile. simpl.
  apply userProfileRemove_consistent.
  destruct (decide (selectedUser (state svc) = userId)); [|done].
  destruct (find _ _) as [u|] eqn:F; [|done]. simpl.
  apply userSelect_consistent; [|done].
  right. apply found_user_is_key; [apply Hs | done].
Qed.

Lemma refreshUser_begin_state svc : state (refreshUser_begin svc).1 = state svc.
Proof. unfold refreshUser_begin. by destruct (user (state svc)). Qed.

Lemma uploadSkin_begin_state options svc :
  state (uploadSkin_begin options svc).1 = state svc.
Proof.
  unfold uploadSkin_begin. destruct (get _ _) as [u|]; [|done].
  by destruct (profiles u !! _).
Qed.

(** One admissible event keeps the state consistent. *)
Lemma step_consistent e svc :
  consistent (state svc) → admissible e svc → consistent (state (step e svc)).
Proof.
  intros Hs Ha.
  destruct e as [o|result|o|result| |result|id|pid|id|p|nm sys| |]; simpl in *.
  - done.
  - destruct result as [p|err]; simpl; [|done].
    by apply userProfile_userSelect_consistent.
  - by rewrite uploadSkin_begin_state.
  - destruct result as [p|err]; simpl; [|done].
    by apply userProfile_consistent.
  - by rewrite refreshUser_begin_state.
  - destruct result as [p|err]; simpl; [|done].
    by apply userProfile_consistent.
  - unfold selectUser_begin.
    destruct (decide (id = selectedUser (state svc))); [done|].
    rewrite refreshUser_begin_state. simpl. by apply userSelect_consistent.
  - unfold selectGameProfile. destruct (user (state svc)) eqn:E; [|done].
    simpl. apply userGameProfileSelect_consistent; [|done].
    destruct Ha as [->|Hprof]; [by left|]. right. intros u0 Hu0.
    apply Hprof. congruence.
  - by apply removeUserProfile_consistent.
  - by apply userProfile_consistent.
  - done.
  - unfold abortLogin. by destruct (loginController svc).
  - unfold abortRefresh. by destruct (refreshController svc).
Qed.

(** C1, as the code has it: starting from a state that satisfies the
    selection invariant (with each account stored under its id), every
    state reached by events that are admissible satisfies it: [selectUser]
    called with the id of an existing account or the empty string,
    [selectGameProfile] with a profile of the selected account or the empty
    string, providers returning accounts whose [selectedProfile] is empty or
    one of their profiles.  The operations check none of this themselves. *)
Theorem selection_invariant_admissible (svc0 svc : UserService) :
  selection_invariant (state svc0) →
  keyed_by_id (state svc0) →
  reachable_admissible svc0 svc →
  selection_invariant (state svc).
Proof.
  intros Hinv Hkey Hreach.
  cut (consistent (state svc)); [by intros [? _]|].
  induction Hreach as [|e svc Hreach IH Ha]; [done|].
  by apply step_consistent.
Qed.

End SelectionInvariant.

(** C1 as stated fails: on a fresh service [selectUser("ghost")] completes
    without error and leaves a selection that is no key of the accounts. *)
Lemma selectUser_unknown_breaks_invariant :
  selection_invariant (state fresh)
  ∧ selectUser "ghost" fresh
    = (with_state (userSelect "ghost" (state fresh)) fresh, Resolved ())
  ∧ reachable fresh (selectUser "ghost" fresh).1
  ∧ selectedUser (state (selectUser "ghost" fresh).1) = "ghost"
  ∧ get "ghost" (users (state (selectUser "ghost" fresh).1)) = None
  ∧ ¬ selection_invariant (state (selectUser "ghost" fresh).1).
Proof.
  split; [split; [by left | constructor]|].
  split; [reflexivity|].
  split; [exact (reachable_step fresh (SelectUserBegin "ghost") fresh
                   (reachable_start fresh))|].
  split; [reflexivity|]. split; [reflexivity|].
  intros [[Hsel|Hsel] _]; simpl in Hsel; [done|].
  by destruct Hsel.
Qed.

(** The same happens with [selectGameProfile]: a profile id the selected
    account does not have becomes its [selectedProfile]. *)
Example selectGameProfile_unknown_breaks_invariant :
  selection_invariant (state serviceAB)
  ∧ ¬ selection_invariant (state (selectGameProfile "nope" serviceAB).1).
Proof.
  split.
  - split; [right; by eexists|].
    apply Forall_cons; split; [right; eexists; reflexivity|].
    apply Forall_cons; split; [right; eexists; reflexivity | constructor].
  - intros [_ Hall]. apply Forall_cons in Hall as [[Ha|Ha] _]; simpl in Ha.
    + done.
    + vm_compute in Ha. by destruct Ha.
Qed.

(** And with a provider whose account selects a profile it does not have. *)
Example login_sloppy_breaks_invariant :
  ¬ selection_invariant (state (login steve (create ∅ sloppySystem)).1).
Proof.
  intros [_ Hall]. apply Forall_cons in Hall as [[Ha|Ha] _]; simpl in Ha.
  - done.
  - vm_compute in Ha. by destruct Ha.
Qed.

(** The theorem on a run of a fresh service: a login that succeeds, the
    selection of the new account's profile, the removal of the account. *)
Lemma selection_invariant_admissible_witness :
  selection_invariant
    (state (step (RemoveUserProfile "steve")
             (step (SelectGameProfile "main")
                (step (LoginResume (Resolved (account "steve" "main")))
                   (step (LoginBegin steve) fresh))))).
Proof.
  apply (selection_invariant_admissible fresh).
  - split; [by left | constructor].
  - constructor.
  - apply admissible_step; [|exact I].
    apply admissible_step.
    + apply admissible_step; [|right; by eexists].
      apply admissible_step; [apply admissible_start | exact I].
    + right. intros u [= <-]. by eexists.
Defined.

(** ** Removing the selected account *)

Section RemoveUserProfile.

Implicit Types (svc : UserService) (a b : UserProfile).

(** The search of [removeUserProfile] runs over all accounts, the one being
    removed included: when that one comes first and has a selected profile,
    it is found, selected again and then removed with its selection. *)
Lemma removeUserProfile_finds_removed svc a rest :
  users (state svc) = (uid a, a) :: rest →
  selectedUser (state svc) = uid a →
  truthy (selectedProfile a) = true →
  selectedUser (state (removeUserProfile (uid a) svc).1) = "".
Proof.
  intros Hu Hsel Ha. unfold removeUserProfile. simpl.
  destruct (decide (selectedUser (state svc) = uid a)); [|done].
  rewrite Hu. simpl. rewrite Ha. simpl.
  unfold userProfileRemove. simpl. by destruct (decide (uid a = uid a)).
Qed.

(** With accounts A (selected) and B, B is selected after the removal of A
    when A has no selected profile and B has one, and nothing is selected
    when neither has one. *)
Lemma removeUserProfile_selects_other svc a b :
  users (state svc) = [(uid a, a); (uid b, b)] →
  uid a ≠ uid b →
  selectedUser (state svc) = uid a →
  selectedProfile a = "" →
  selectedUser (state (removeUserProfile (uid a) svc).1)
  = (if truthy (selectedProfile b) then uid b else "")
  ∧ keys (users (state (removeUserProfile (uid a) svc).1)) = [uid b].
Proof.
  intros Hu Hne Hsel Ha. unfold removeUserProfile. simpl.
  destruct (decide (selectedUser (state svc) = uid a)); [|done].
  rewrite Hu. simpl. rewrite Ha. simpl.
  destruct (truthy (selectedProfile b)) eqn:Hb; simpl;
    unfold userProfileRemove; simpl; rewrite ?Hsel, Hu; simpl;
    repeat (case_decide; simpl); try done; congruence.
Qed.

End RemoveUserProfile.

(** The state with accounts A and B arises on a fresh service from the
    login of A, the login of B and the selection of A. *)
Example twoAccounts_reachable :
  state (steps [LoginBegin steve; LoginResume (Resolved (account "A" "pa"));
                LoginBegin steve; LoginResume (Resolved (account "B" "pb"));
                SelectUserBegin "A"; RefreshUserResume (Resolved (account "A" "pa"))]
           fresh)
  = twoAccounts.
Proof. reflexivity. Qed.

(** C2 on the code: accounts A and B, A selected and first, both with a
    selected profile.  [removeUserProfile("A")] deletes A and leaves the
    selection empty, although B has a selected profile. *)
Theorem removeUserProfile_loses_selection :
  selectedUser (state serviceAB) = "A"
  ∧ (selectedProfile <$> get "B" (users (state serviceAB))) = Some "pb"
  ∧ keys (users (state (removeUserProfile "A" serviceAB).1)) = ["B"]
  ∧ selectedUser (state (removeUserProfile "A" serviceAB).1) = "".
Proof. repeat split. Qed.

(** With B enumerated before the selected account A the outcome is the one
    the removal is meant to have, whatever A's selected profile is. *)
Lemma removeUserProfile_selects_earlier (svc : UserService) (a b : UserProfile) :
  users (state svc) = [(uid b, b); (uid a, a)] →
  uid a ≠ uid b →
  selectedUser (state svc) = uid a →
  selectedUser (state (removeUserProfile (uid a) svc).1)
  = (if truthy (selectedProfile b) then uid b else "").
Proof.
  intros Hu Hne Hsel. unfold removeUserProfile. simpl.
  destruct (decide (selectedUser (state svc) = uid a)); [|done].
  rewrite Hu. simpl.
  destruct (truthy (selectedProfile b)) eqn:Hb; simpl;
    [|destruct (truthy (selectedProfile a)) eqn:Ha; simpl];
    unfold userProfileRemove; simpl; rewrite ?Hsel; simpl;
    repeat (case_decide; simpl); try done; congruence.
Qed.

(** ** Cancellation *)

Section Cancellation.

Implicit Types (svc : UserService) (c : nat).

Lemma aborted_new svc : aborted (length (controllers svc)) (newAbortController svc).2 = false.
Proof.
  unfold aborted, newAbortController. simpl.
  by rewrite lookup_app_r, Nat.sub_diag.
Qed.

Lemma aborted_abort svc c :
  c < length (controllers svc) → aborted c (abort c svc) = true.
Proof.
  intros Hc. unfold aborted, abort. simpl. by rewrite list_lookup_insert_eq.
Qed.

Lemma aborted_abort_ne svc c c' :
  c ≠ c' → aborted c' (abort c svc) = aborted c' svc.
Proof.
  intros Hne. unfold aborted, abort. simpl. by rewrite list_lookup_insert_ne.
Qed.

(** C3: a login whose provider call is pending when [abortLogin()] is
    called, and whose provider then fails with the cancellation error,
    rejects with that error; the session state is the one before the call
    and the login controller is cleared. *)
Theorem login_aborted_leaves_state (options : LoginOptions) (svc : UserService) :
  AccountSystem.login (system (service options) svc) options true
  = Rejected AbortError →
  let r := run (login_begin options) login_resume abortLogin svc in
  (∃ svc1 c, login_begin options svc
             = (svc1, Await (AwaitLogin (system (service options) svc) options c))
             ∧ aborted c svc1 = false ∧ aborted c (abortLogin svc1) = true)
  ∧ r.2 = Rejected AbortError
  ∧ state r.1 = state svc
  ∧ loginController r.1 = None.
Proof.
  intros Hcoop r.
  assert (Hab : aborted (length (controllers svc))
                  (abortLogin (login_begin options svc).1) = true).
  { unfold login_begin, abortLogin. simpl.
    unfold aborted, abort. simpl.
    rewrite list_lookup_insert_eq; [done|]. rewrite length_app. simpl. lia. }
  split.
  - eexists _, _. split; [reflexivity|]. split; [|exact Hab].
    apply aborted_new.
  - subst r. unfold run. simpl. simpl in Hab. rewrite Hab, Hcoop. done.
Qed.

(** A controller that is neither the login nor the refresh controller is
    left alone by every event. *)
Lemma step_untouched e svc c : untouched c svc → untouched c (step e svc).
Proof.
  intros (Hlen & Hab & Hlogin & Hrefresh).
  assert (Hgrow : untouched c (newAbortController svc).2).
  { repeat split; simpl; try done.
    - rewrite length_app. lia.
    - unfold aborted in *. simpl. by rewrite lookup_app_l. }
  assert (Hfresh : Some (length (controllers svc)) ≠ Some c).
  { intros [= E]. lia. }
  destruct e as [o|result|o|result| |result|id|pid|id|p|nm sys| |]; simpl.
  - destruct Hgrow as (? & ? & ? & ?). by repeat split.
  - destruct result; by repeat split.
  - unfold uploadSkin_begin.
    destruct (get _ _) as [u|]; [|by repeat split].
    destruct (profiles u !! _); [|by repeat split].
    destruct Hgrow as (? & ? & ? & ?). by repeat split.
  - destruct result; by repeat split.
  - unfold refreshUser_begin. destruct (user (state svc)); [|by repeat split].
    destruct Hgrow as (? & ? & ? & ?). by repeat split.
  - destruct result; by repeat split.
  - unfold selectUser_begin. case_decide; [by repeat split|].
    unfold refreshUser_begin. simpl.
    destruct (user _); [|by repeat split].
    destruct Hgrow as (? & ? & ? & ?). by repeat split.
  - unfold selectGameProfile. destruct (user (state svc)); by repeat split.
  - unfold removeUserProfile. simpl.
    case_decide; [destruct (find _ _)|]; by repeat split.
  - by repeat split.
  - by repeat split.
  - unfold abortLogin. destruct (loginController svc) as [c'|] eqn:E;
      [|repeat split; try done; congruence].
    repeat split; simpl; try done; try congruence.
    + by rewrite length_insert.
    + rewrite aborted_abort_ne; [done | congruence].
  - unfold abortRefresh. destruct (refreshController svc) as [c'|] eqn:E;
      [|repeat split; try done; congruence].
    repeat split; simpl; try done; try congruence.
    + by rewrite length_insert.
    + rewrite aborted_abort_ne; [done | congruence].
Qed.

Lemma steps_untouched es svc c : untouched c svc → untouched c (steps es svc).
Proof.
  revert svc. induction es as [|e es IH]; intros svc H; [done|].
  simpl. apply IH. by apply step_untouched.
Qed.

(** The controller a skin upload creates is such a controller. *)
Lemma uploadSkin_begin_untouched options svc svc1 sys u g o c :
  controllers_allocated svc →
  uploadSkin_begin options svc = (svc1, Await (AwaitSetSkin sys u g o c)) →
  setSkinController svc1 = Some c ∧ untouched c svc1.
Proof.
  intros [Hlogin Hrefresh]. unfold uploadSkin_begin.
  destruct (get _ _) as [u'|]; [|done].
  destruct (profiles u' !! _); [|done].
  simpl. intros [= <- _ _ _ _ <-]. simpl. split; [done|].
  repeat split; simpl.
  - rewrite length_app. simpl. lia.
  - apply aborted_new.
  - intros E. apply Hlogin in E. lia.
  - intros E. apply Hrefresh in E. lia.
Qed.

(** C4, as the code has it: [abortLogin()] and [abortRefresh()] abort the
    controller of a pending login, respectively refresh, without touching
    the session state, and change nothing when there is none.  The service
    has no operation for the skin upload: the controller of a pending
    [uploadSkin] is never aborted, whatever events follow. *)
Theorem abort_operations (svc : UserService) :
  (loginController svc = None → abortLogin svc = svc)
  ∧ (refreshController svc = None → abortRefresh svc = svc)
  ∧ (∀ c, loginController svc = Some c → c < length (controllers svc) →
          aborted c (abortLogin svc) = true
          ∧ state (abortLogin svc) = state svc)
  ∧ (∀ c, refreshController svc = Some c → c < length (controllers svc) →
          aborted c (abortRefresh svc) = true
          ∧ state (abortRefresh svc) = state svc)
  ∧ (∀ options svc1 sys u g o c es,
        controllers_allocated svc →
        uploadSkin_begin options svc = (svc1, Await (AwaitSetSkin sys u g o c)) →
        setSkinController svc1 = Some c
        ∧ aborted c (steps es svc1) = false).
Proof.
  unfold abortLogin, abortRefresh.
  split; [by intros ->|]. split; [by intros ->|].
  split; [|split].
  - intros c -> Hc. split; [by apply aborted_abort | done].
  - intros c -> Hc. split; [by apply aborted_abort | done].
  - intros options svc1 sys u g o c es Halloc Hbegin.
    destruct (uploadSkin_begin_untouched _ _ _ _ _ _ _ _ Halloc Hbegin)
      as [Hslot Hun].
    split; [done|].
    by apply (steps_untouched es) in Hun as (_ & ? & _).
Qed.

End Cancellation.

(** The theorem on a fresh service and the provider [localSystem], which
    rejects with the cancellation error once its signal is aborted. *)
Lemma login_aborted_leaves_state_witness :
  (run (login_begin steve) login_resume abortLogin fresh).2 = Rejected AbortError
  ∧ state (run (login_begin steve) login_resume abortLogin fresh).1 = state fresh.
Proof.
  destruct (login_aborted_leaves_state steve fresh eq_refl) as (_ & Hout & Hstate & _).
  split; assumption.
Defined.

(** C4 as stated fails for the skin upload: with an upload pending on a
    service with accounts A and B, no sequence of events of the service
    aborts its signal; the provider call settles as if never cancelled. *)
Lemma skin_upload_is_never_aborted :
  ∃ svc1 call c,
    uploadSkin_begin (skinOnly None) serviceAB = (svc1, Await call)
    ∧ setSkinController svc1 = Some c
    ∧ ∀ es, aborted c (steps es svc1) = false
            ∧ settle call (steps es svc1) = Resolved (account "A" "pa").
Proof.
  exists (uploadSkin_begin (skinOnly None) serviceAB).1,
    (AwaitSetSkin localSystem (account "A" "pa") {| gid := "pa"; name := "A" |}
       (skinOnly None) 0), 0.
  split; [reflexivity|]. split; [reflexivity|].
  intros es.
  assert (Hun : untouched 0 (uploadSkin_begin (skinOnly None) serviceAB).1).
  { split; [vm_compute; lia|]. split; [reflexivity|]. split; discriminate. }
  apply (steps_untouched es) in Hun as (_ & Hab & _).
  split; [exact Hab|]. unfold settle. by rewrite Hab.
Qed.

(** The theorem on a service with a login pending: [abortLogin()] aborts
    its signal, [abortRefresh()] has nothing to abort. *)
Lemma abort_operations_witness :
  aborted 0 (abortLogin (login_begin steve fresh).1) = true
  ∧ abortRefresh (login_begin steve fresh).1 = (login_begin steve fresh).1.
Proof.
  pose proof (abort_operations (login_begin steve fresh).1)
    as (_ & Hrefresh & Hlogin & _).
  split.
  - apply (Hlogin 0); [reflexivity | simpl; lia].
  - apply Hrefresh. reflexivity.
Defined.

(** ** Selecting an account *)

Section SelectUser.

Implicit Types (svc : UserService) (u : UserProfile).

Lemma refreshUser_resolved svc u u' :
  user (state svc) = Some u →
  refresh (system (authService u) svc) u false = Resolved u' →
  refreshUser_begin svc
  = (with_refreshController (Some (length (controllers svc)))
       (newAbortController svc).2,
     Await (AwaitRefresh (system (authService u) svc) u (length (controllers svc))))
  ∧ (refreshUser svc).2 = Resolved ()
  ∧ state (refreshUser svc).1 = userProfile u' (state svc).
Proof.
  intros Hu Hr. unfold refreshUser, run, refreshUser_begin. rewrite Hu. simpl.
  split; [done|].
  pose proof (aborted_new svc) as Hab. unfold aborted in *. simpl in *.
  by rewrite Hab, Hr.
Qed.

Lemma refreshUser_selectedUser svc :
  selectedUser (state (refreshUser svc).1) = selectedUser (state svc).
Proof.
  unfold refreshUser, run, refreshUser_begin.
  destruct (user (state svc)); simpl; [|done].
  unfold refreshUser_resume. by destruct (refresh _ _ _).
Qed.

Lemma refreshUser_rejected svc u e :
  user (state svc) = Some u →
  refresh (system (authService u) svc) u false = Rejected e →
  (refreshUser svc).2 = Rejected e
  ∧ state (refreshUser svc).1 = state svc.
Proof.
  intros Hu Hr. unfold refreshUser, run, refreshUser_begin. rewrite Hu. simpl.
  pose proof (aborted_new svc) as Hab. unfold aborted in *. simpl in *.
  by rewrite Hab, Hr.
Qed.

(** C6, as the code has it: [selectUser(id)] with the selected id returns
    at once, without changing anything and without a provider call; with
    another id it sets the selection and is, from there on, [refreshUser()].
    What the caller finds when the call completes depends on that refresh:
    when the account exists and the provider refreshes it, the call resolves
    with the selection on [id] and the provider's answer stored under the
    answer's id, so that it is the selected account when it kept [id]; when
    there is no account under [id], the call resolves without any provider
    call, with [id] selected and nothing refreshed; when the provider
    rejects the refresh, the call rejects, [id] stays selected and the
    accounts are as they were. *)
Theorem selectUser_selects_then_refreshes (userId : string) (svc : UserService) :
  (userId = selectedUser (state svc) →
     selectUser_begin userId svc = (svc, Return (Resolved ()))
     ∧ selectUser userId svc = (svc, Resolved ()))
  ∧ (userId ≠ selectedUser (state svc) →
     selectUser userId svc
     = refreshUser (with_state (userSelect userId (state svc)) svc)
     ∧ selectedUser (state (selectUser userId svc).1) = userId)
  ∧ (∀ u u',
       userId ≠ selectedUser (state svc) →
       get userId (users (state svc)) = Some u →
       refresh (system (authService u) svc) u false = Resolved u' →
       (∃ svc1 c, selectUser_begin userId svc
                  = (svc1, Await (AwaitRefresh (system (authService u) svc) u c)))
       ∧ (selectUser userId svc).2 = Resolved ()
       ∧ selectedUser (state (selectUser userId svc).1) = userId
       ∧ get (uid u') (users (state (selectUser userId svc).1)) = Some u'
       ∧ (uid u' = userId → user (state (selectUser userId svc).1) = Some u'))
  ∧ (userId ≠ selectedUser (state svc) →
     get userId (users (state svc)) = None →
     selectUser_begin userId svc
     = (with_state (userSelect userId (state svc)) svc, Return (Resolved ()))
     ∧ selectUser userId svc
       = (with_state (userSelect userId (state svc)) svc, Resolved ())
     ∧ user (state (selectUser userId svc).1) = None)
  ∧ (∀ u e,
       userId ≠ selectedUser (state svc) →
       get userId (users (state svc)) = Some u →
       refresh (system (authService u) svc) u false = Rejected e →
       (selectUser userId svc).2 = Rejected e
       ∧ selectedUser (state (selectUser userId svc).1) = userId
       ∧ users (state (selectUser userId svc).1) = users (state svc)).
Proof.
  assert (Hsame : userId ≠ selectedUser (state svc) →
            selectUser userId svc
            = refreshUser (with_state (userSelect userId (state svc)) svc)).
  { intros Hne. unfold selectUser, refreshUser, run, selectUser_begin.
    by rewrite decide_False. }
  split; [|split; [|split; [|split]]].
  - intros ->. unfold selectUser, run, selectUser_begin.
    by rewrite decide_True.
  - intros Hne. split; [by apply Hsame|]. rewrite (Hsame Hne).
    by rewrite refreshUser_selectedUser.
  - intros u u' Hne Hu Hr.
    set (svc' := with_state (userSelect userId (state svc)) svc).
    assert (Hu' : user (state svc') = Some u) by exact Hu.
    destruct (refreshUser_resolved svc' u u' Hu' Hr) as (Hbegin & Hout & Hstate).
    rewrite (Hsame Hne). fold svc'. rewrite Hout, Hstate. simpl.
    split.
    + eexists _, _. unfold selectUser_begin. rewrite decide_False by done.
      fold svc'. exact Hbegin.
    + split; [done|]. split; [done|].
      split; [apply get_set_eq|].
      intros <-. unfold user. simpl. apply get_set_eq.
  - intros Hne Hu.
    set (svc' := with_state (userSelect userId (state svc)) svc).
    assert (Hu' : user (state svc') = None) by exact Hu.
    assert (Hbegin : selectUser_begin userId svc = (svc', Return (Resolved ()))).
    { unfold selectUser_begin. rewrite decide_False by done. fold svc'.
      unfold refreshUser_begin. by rewrite Hu'. }
    split; [exact Hbegin|].
    unfold selectUser, run. rewrite Hbegin. by split.
  - intros u e Hne Hu Hr.
    set (svc' := with_state (userSelect userId (state svc)) svc).
    assert (Hu' : user (state svc') = Some u) by exact Hu.
    destruct (refreshUser_rejected svc' u e Hu' Hr) as (Hout & Hstate).
    rewrite (Hsame Hne). fold svc'. by rewrite Hout, Hstate.
Qed.

End SelectUser.

(** The theorem on the service with accounts A and B: selecting A again
    changes nothing, selecting B refreshes B. *)
Lemma selectUser_selects_then_refreshes_witness :
  selectUser "A" serviceAB = (serviceAB, Resolved ())
  ∧ (selectUser "B" serviceAB).2 = Resolved ()
  ∧ selectedUser (state (selectUser "B" serviceAB).1) = "B".
Proof.
  pose proof (selectUser_selects_then_refreshes "A" serviceAB) as (HA & _).
  pose proof (selectUser_selects_then_refreshes "B" serviceAB) as (_ & _ & HB & _).
  split; [apply HA; reflexivity|].
  destruct (HB (account "B" "pb") (account "B" "pb")) as (_ & Hout & Hsel & _);
    [done | reflexivity | reflexivity |].
  split; assumption.
Defined.

(** C6 as stated does not hold in every state: a completed [selectUser]
    need not have refreshed anything.  On a service without accounts,
    [selectUser('ghost')] resolves without a provider call and leaves no
    selected account to observe; with accounts A and B and a provider that
    rejects the refresh, [selectUser('B')] rejects, B is selected and is the
    account it was before. *)
Lemma selectUser_completes_unrefreshed :
  (selectUser_begin "ghost" fresh
   = (with_state (userSelect "ghost" (state fresh)) fresh, Return (Resolved ()))
   ∧ (selectUser "ghost" fresh).2 = Resolved ()
   ∧ selectedUser (state (selectUser "ghost" fresh).1) = "ghost"
   ∧ user (state (selectUser "ghost" fresh).1) = None)
  ∧ ((selectUser "B" serviceAB_expired).2 = Rejected (OtherError "invalid token")
     ∧ selectedUser (state (selectUser "B" serviceAB_expired).1) = "B"
     ∧ user (state (selectUser "B" serviceAB_expired).1) = Some (account "B" "pb")
     ∧ users (state (selectUser "B" serviceAB_expired).1)
       = users (state serviceAB_expired)).
Proof.
  split.
  - split; [reflexivity|]. split; [reflexivity|]. split; reflexivity.
  - split; [reflexivity|]. split; [reflexivity|]. split; reflexivity.
Qed.

(** ** Uploading a skin *)

Section UploadSkin.

Implicit Types (svc : UserService) (u : UserProfile) (sk : option Skin).

(** C9: when the user id the call resolves to (the one given, else the
    selected one) has no account, [uploadSkin] throws a [TypeError] at once:
    no provider is called and the service is as before. *)
Theorem uploadSkin_unknown_user (options : UploadSkinOptions) (svc : UserService) :
  get (default (selectedUser (state svc)) (userId options)) (users (state svc)) = None →
  ∃ message,
    uploadSkin_begin options svc = (svc, Return (Rejected (TypeError message)))
    ∧ uploadSkin options svc = (svc, Rejected (TypeError message)).
Proof.
  intros Hnone. eexists. unfold uploadSkin, run, uploadSkin_begin.
  rewrite Hnone. split; reflexivity.
Qed.

Lemma skin_defaultSlim options :
  skin (defaultSlim options)
  = (λ s, {| skinUrl := skinUrl s;
             slim := if notBoolean (slim s) then VBool false else slim s |})
    <$> skin options.
Proof.
  unfold defaultSlim. destruct (skin options) as [[url sl]|] eqn:E; [|by rewrite E].
  simpl. destruct (notBoolean sl); simpl; [done|]. by rewrite E.
Qed.

(** C7, as the code has it: with account X selected and P its selected
    profile, [uploadSkin({skin})] and [uploadSkin({userId: X,
    gameProfileId: P, skin})] fail alike before the provider call, or call
    the same provider for the same account and game profile, under the same
    controller and with the same skin, in which a [slim] that is not a
    boolean has become [false].  The provider is handed the caller's
    options, which differ in [userId] and [gameProfileId]: the two calls end
    in the same service and outcome for a provider that reads only the skin
    of its options. *)
Theorem uploadSkin_default_resolution
  (svc : UserService) (X P : string) (u : UserProfile) (sk : option Skin) :
  selectedUser (state svc) = X →
  get X (users (state svc)) = Some u →
  selectedProfile u = P →
  let o1 := {| gameProfileId := None; userId := None; skin := sk |} in
  let o2 := {| gameProfileId := Some P; userId := Some X; skin := sk |} in
  match uploadSkin_begin o1 svc, uploadSkin_begin o2 svc with
  | (svc1, Return r1), (svc2, Return r2) => svc1 = svc2 ∧ r1 = r2
  | (svc1, Await (AwaitSetSkin sys1 u1 g1 p1 c1)),
    (svc2, Await (AwaitSetSkin sys2 u2 g2 p2 c2)) =>
      svc1 = svc2 ∧ sys1 = sys2 ∧ u1 = u2 ∧ g1 = g2 ∧ c1 = c2
      ∧ skin p1 = skin p2
      ∧ skin p1 = (λ s, {| skinUrl := skinUrl s;
                           slim := if notBoolean (slim s) then VBool false
                                   else slim s |}) <$> sk
      ∧ gameProfileId p1 = None ∧ gameProfileId p2 = Some P
      ∧ userId p1 = None ∧ userId p2 = Some X
  | _, _ => False
  end
  ∧ (setSkin_reads_skin_only (system (authService u) svc) →
     uploadSkin o1 svc = uploadSkin o2 svc).
Proof.
  intros HX Hu HP o1 o2.
  assert (Hkey : profileKey o2 u = profileKey o1 u).
  { subst o1 o2. unfold profileKey. simpl. rewrite HP. by destruct (truthy P). }
  assert (Hskin : skin (defaultSlim o1) = skin (defaultSlim o2)).
  { by rewrite !skin_defaultSlim. }
  assert (Hfields : gameProfileId (defaultSlim o1) = None
                    ∧ gameProfileId (defaultSlim o2) = Some P
                    ∧ userId (defaultSlim o1) = None
                    ∧ userId (defaultSlim o2) = Some X).
  { subst o1 o2. unfold defaultSlim. simpl.
    destruct sk as [s|]; simpl; [|done]. by destruct (notBoolean (slim s)). }
  unfold uploadSkin, run, uploadSkin_begin.
  change (userId o1) with (@None string). change (userId o2) with (Some X).
  simpl default. rewrite HX, Hu, Hkey.
  destruct (profiles u !! profileKey o1 u) as [g|]; [|by split].
  simpl. split.
  - do 5 (split; [reflexivity|]). split; [exact Hskin|].
    split; [apply skin_defaultSlim|]. exact Hfields.
  - intros Hreads. unfold uploadSkin_resume.
    by rewrite (Hreads u g _ _ _ Hskin).
Qed.

End UploadSkin.

(** C7 as stated fails: for a provider that reads [userId] from the options
    it is handed, the call with defaults is rejected and the call that names
    the selected account and its selected profile succeeds. *)
Lemma uploadSkin_options_reach_provider :
  selectedUser (state serviceAB_strict) = "A"
  ∧ (selectedProfile <$> get "A" (users (state serviceAB_strict))) = Some "pa"
  ∧ (uploadSkin (skinOnly None) serviceAB_strict).2
    = Rejected (OtherError "options.userId is required")
  ∧ (uploadSkin (skinFor "A" "pa" None) serviceAB_strict).2 = Resolved ().
Proof. repeat split. Qed.

(** The theorem on the service with accounts A and B and the provider
    [localSystem], for a skin whose [slim] is missing. *)
Lemma uploadSkin_default_resolution_witness :
  uploadSkin (skinOnly (Some {| skinUrl := "steve.png"; slim := VUndefined |})) serviceAB
  = uploadSkin (skinFor "A" "pa" (Some {| skinUrl := "steve.png"; slim := VUndefined |}))
      serviceAB.
Proof.
  apply (uploadSkin_default_resolution serviceAB "A" "pa" (account "A" "pa")
           (Some {| skinUrl := "steve.png"; slim := VUndefined |})
           eq_refl eq_refl eq_refl).
  intros u g o1 o2 signal _. reflexivity.
Defined.

(** The theorem on a fresh service: nobody is selected, no id is given. *)
Lemma uploadSkin_unknown_user_witness :
  ∃ message, uploadSkin (skinOnly None) fresh = (fresh, Rejected (TypeError message)).
Proof.
  destruct (uploadSkin_unknown_user (skinOnly None) fresh eq_refl)
    as (message & _ & Hrun).
  exists message. exact Hrun.
Defined.

(** * Further properties *)

(** ** Writing the file store *)

Section SafeFileWrite.

Context {T : Type} (writable : string → bool)
  (serialize : T → Outcome Buffer) (deserialize : Buffer → T) (path : string).

Implicit Types (disk : gmap string File) (legacyPaths : list string).

Lemma ensureFile_present disk : is_Some (ensureFile path disk !! path).
Proof.
  unfold ensureFile. destruct (disk !! path) as [f|] eqn:E.
  - rewrite E. eauto.
  - rewrite lookup_insert_eq. eauto.
Qed.

Lemma ensureFile_other disk p : p ≠ path → ensureFile path disk !! p = disk !! p.
Proof.
  intros Hne. unfold ensureFile. destruct (disk !! path); [done|].
  by rewrite lookup_insert_ne.
Qed.




(** X3: [createSafeIO] is [createSafeFile] without legacy paths: its
    [write] is the same function, a [read] of [createSafeFile] with no
    legacy path is its [read] and leaves the disk alone, and after any
    [read] of [createSafeFile] the document returned is the one
    [createSafeIO] reads at the primary path. *)
Theorem safeIO_agrees_with_safeFile legacyPaths (data : T) disk :
  io_write serialize path data disk = write serialize path data disk
  ∧ read writable deserialize path [] disk
    = {| document := io_read deserialize path disk;
         disk_after := disk; copies := [] |}
  ∧ document (read writable deserialize path legacyPaths disk)
    = io_read deserialize path
        (disk_after (read writable deserialize path legacyPaths disk)).
Proof.
  split; [reflexivity|]. split.
  - unfold read, io_read. by destruct (missing path disk).
  - unfold io_read. destruct (missing path disk) eqn:M.
    + destruct (migrate_cases writable path disk legacyPaths) as [E | (p & f & _ & _ & E)].
      * rewrite (read_nothing_copied _ _ _ _ _ M E). simpl.
        apply missing_true in M. unfold readFile. by rewrite M.
      * rewrite (read_copied _ _ _ _ _ _ _ M E). simpl.
        unfold readFile. by rewrite lookup_insert_eq.
    + by rewrite (read_present _ _ _ _ _ M).
Qed.

End SafeFileWrite.



(** ** The updater *)

Import ElectronUpdater.

Section AsarValidator.

Context (env : ValidatorEnv).

(** X4: a checksum text that is not 64 characters long switches the
    validation off.  An empty file passes without any request; a fetched
    text of another length lets the file pass and is kept; and once such a
    text is kept, every later file passes, whatever its checksum, with no
    further request. *)
Theorem validate_malformed_checksum_accepts (file url : string) :
  (∀ sha256, statSize env file = Resolved 0%N →
             validate env sha256 file url = (sha256, Resolved ()))
  ∧ (∀ text, statSize env file ≠ Resolved 0%N →
             request env (url +:+ ".sha256") = Resolved (Resolved text) →
             String.length text ≠ 64 →
             validate env "" file url = (text, Resolved ()))
  ∧ (∀ e, statSize env file ≠ Resolved 0%N →
          request env (url +:+ ".sha256") = Resolved (Rejected e) →
          validate env "" file url = ("", Resolved ()))
  ∧ (∀ sha256, sha256 ≠ "" → String.length sha256 ≠ 64 →
               validate env sha256 file url = (sha256, Resolved ())).
Proof.
  assert (Hlen : ∀ s, String.length s ≠ 64 →
            negb (truthy s) || negb (bool_decide (String.length s = 64)) = true).
  { intros s Hs. rewrite (bool_decide_eq_false_2 _ Hs). simpl.
    by rewrite orb_true_r. }
  assert (Hmissed : statSize env file ≠ Resolved 0%N →
            match statSize env file with
            | Resolved size => bool_decide (size = 0%N)
            | Rejected _ => false
            end = false).
  { intros Hne. destruct (statSize env file) as [size|]; [|done].
    apply bool_decide_eq_false_2. congruence. }
  split; [|split; [|split]].
  - intros sha256 Hstat. unfold validate. rewrite Hstat. done.
  - intros text Hstat Hreq Htext. unfold validate.
    rewrite (Hmissed Hstat). simpl. rewrite Hreq. simpl.
    by rewrite (Hlen _ Htext).
  - intros e Hstat Hreq. unfold validate.
    rewrite (Hmissed Hstat). simpl. rewrite Hreq. done.
  - intros sha256 Hne Hsha. unfold validate.
    destruct (match statSize env file with
              | Resolved size => bool_decide (size = 0%N)
              | Rejected _ => false
              end); [done|].
    assert (Ht : truthy sha256 = true).
    { unfold truthy. by rewrite (bool_decide_eq_false_2 _ Hne). }
    rewrite Ht. simpl. rewrite Ht. simpl.
    by rewrite (bool_decide_eq_false_2 _ Hsha).
Qed.

(** X5: with a checksum of 64 characters at hand, a file that is not empty
    is accepted exactly when its own checksum is that text: no request is
    made, the [url] plays no part, a failure to compute the checksum is
    passed on. *)
Theorem validate_compares_checksum (sha256 file url : string) :
  String.length sha256 = 64 →
  statSize env file ≠ Resolved 0%N →
  validate env sha256 file url
  = (sha256,
     match checksum env file with
     | Resolved actual =>
         if decide (actual = sha256) then Resolved ()
         else Rejected (OtherError "ChecksumNotMatchError")
     | Rejected e => Rejected e
     end).
Proof.
  intros Hsha Hstat. unfold validate.
  assert (Hmissed : match statSize env file with
                    | Resolved size => bool_decide (size = 0%N)
                    | Rejected _ => false
                    end = false).
  { destruct (statSize env file) as [size|]; [|done].
    apply bool_decide_eq_false_2. congruence. }
  rewrite Hmissed.
  assert (Ht : truthy sha256 = true).
  { unfold truthy. destruct sha256; [done|]. done. }
  rewrite Ht. simpl. rewrite Ht. simpl.
  rewrite (bool_decide_eq_true_2 _ Hsha). simpl.
  destruct (checksum env file) as [actual|e]; [|done].
  destruct (decide (actual = sha256)) as [->|Hne].
  - rewrite bool_decide_eq_false_2; [done|]. by intros H.
  - rewrite bool_decide_eq_true_2; [done|]. congruence.
Qed.

End AsarValidator.

Section SelfHostRelease.

Implicit Types (result : LatestRelease) (info : ReleaseInfo).

(** X6: the self-hosted release and the asar download name the same file.
    When [getUpdateFromSelfHost] marks a release incremental, and the two
    platform names describe the same platform, the two URLs that
    [DownloadAsarUpdateTask] requests for [updateInfo.name] end in the name
    of one of the release's files.  [newUpdate] is false exactly for the
    tag ["v" + app.version]. *)
Theorem selfHost_incremental_names_asar
  (AZURE_CDN AZURE_MS_CDN pl version platformName : string) result :
  (pl = "win32" ↔ platformName = "windows") →
  (pl = "darwin" ↔ platformName = "osx") →
  let info := getUpdateFromSelfHost version platformName result in
  (incremental info = true →
   ∃ f, f ∈ files info
        ∧ asarUrls AZURE_CDN AZURE_MS_CDN pl (release_name info)
          = [AZURE_CDN +:+ "/" +:+ file_name f; AZURE_MS_CDN +:+ "/" +:+ file_name f])
  ∧ (newUpdate info = false ↔ tag_name result = "v" +:+ version)
  ∧ useAutoUpdater info = false.
Proof.
  intros Hwin Hmac info. split; [|split; [|done]].
  - subst info. unfold getUpdateFromSelfHost. simpl.
    intros (f & Hin & Hname)%existsb_exists.
    apply bool_decide_eq_true in Hname.
    exists f. split; [by apply list_elem_of_In|].
    unfold asarUrls. rewrite Hname.
    destruct (decide (pl = "win32")) as [Hp|Hp],
             (decide (platformName = "windows")) as [Hn|Hn];
      [done | by apply Hwin in Hp | by apply Hwin in Hn |].
    destruct (decide (pl = "darwin")) as [Hd|Hd],
             (decide (platformName = "osx")) as [Ho|Ho];
      [done | by apply Hmac in Hd | by apply Hmac in Ho | done].
  - subst info. unfold getUpdateFromSelfHost. simpl.
    rewrite bool_decide_eq_false. split.
    + intros Hnn. by destruct (decide ("v" +:+ version = tag_name result)).
    + intros ->. by intros H.
Qed.

(** X7: what is installed need not be what was downloaded.  The asar
    download is chosen exactly for an incremental release on the [raw]
    environment, and an installation (outside development) of such a release
    takes the asar path.  For an incremental release on any other
    environment the asar path is taken as well, although no asar was
    downloaded.  In development nothing is installed. *)
Theorem asar_download_and_install (env pendingUpdate : string) info :
  ((∃ d v, downloadUpdateTask env pendingUpdate info = DownloadAsarUpdateTask d v)
   ↔ env = "raw" ∧ incremental info = true)
  ∧ (env = "raw" → incremental info = true →
     downloadUpdateTask env pendingUpdate info
     = DownloadAsarUpdateTask pendingUpdate (release_name info)
     ∧ installUpdateAndQuit false info = QuitAndInstallAsar)
  ∧ (env ≠ "raw" → incremental info = true →
     installUpdateAndQuit false info = QuitAndInstallAsar
     ∧ downloadUpdateTask env pendingUpdate info
       = (if decide (env = "appx") then DownloadAppInstallerTask
          else DownloadFullUpdateTask))
  ∧ installUpdateAndQuit true info = SkipInstall.
Proof.
  unfold downloadUpdateTask, installUpdateAndQuit.
  split; [|split; [|split; [|done]]].
  - split.
    + intros (d & v & H). destruct (decide (env = "appx")); [done|].
      destruct (incremental info); [|done].
      destruct (bool_decide (env = "raw")) eqn:E; [|done].
      by apply bool_decide_eq_true in E.
    + intros [-> ->]. eexists _, _. reflexivity.
  - intros -> ->. done.
  - intros Hne ->. split; [done|].
    destruct (decide (env = "appx")); [done|].
    by rewrite (bool_decide_eq_false_2 _ Hne).
Qed.

End SelfHostRelease.

(** Rewrites the lookups of inserts and deletes at keys known to differ. *)
Ltac lookups :=
  repeat first
    [ rewrite lookup_insert_eq
    | rewrite lookup_delete_eq
    | rewrite lookup_insert_ne by congruence
    | rewrite lookup_delete_ne by congruence ].

Lemma length_string_app (s t : string) :
  String.length (s +:+ t) = String.length s + String.length t.
Proof. induction s as [|c s IH]; simpl; [done | by rewrite IH]. Qed.

Lemma rename_moves movable (disk : gmap string File) src dst f :
  disk !! src = Some f → movable src dst = true →
  rename movable src dst disk = Resolved (<[dst := f]> (delete src disk)).
Proof. intros E M. unfold rename. by rewrite E, M. Qed.

Lemma rename_fails movable (disk : gmap string File) src dst :
  disk !! src = None ∨ movable src dst = false →
  ∃ e, rename movable src dst disk = Rejected e.
Proof.
  intros [E | M]; unfold rename.
  - rewrite E. eauto.
  - rewrite M. destruct (disk !! src); eauto.
Qed.

Section InstallAsar.

Context (movable : string → string → bool) (app update : string).

Implicit Types (disk : gmap string File) (f : File).

Let bk : string := app +:+ ".bk".

Lemma bk_ne_app : bk ≠ app.
Proof.
  subst bk. intros H. apply (f_equal String.length) in H.
  rewrite length_string_app in H. simpl in H. lia.
Qed.

(** X8: the swap of [quitAndInstallAsar] on platforms other than Windows.
    When the update is at hand and can be moved onto the application path,
    the application file becomes the update, the update path is empty, every
    file other than the backup is as before and the application is
    relaunched.  When the move of the update fails, because there is no
    update or because the move is refused, nothing is relaunched and the
    backup decides: an application that was backed up and can be moved back
    is in place again, unchanged, and the call resolves; one that cannot be
    moved back stays at the backup path and the call rejects; and when no
    backup was made and none was there the call rejects and changes
    nothing. *)
Theorem quitAndInstallAsar_swaps disk :
  update ≠ app → update ≠ app +:+ ".bk" →
  let r := quitAndInstallAsar movable app update disk in
  let updateFails := disk !! update = None ∨ movable update app = false in
  (∀ u, disk !! update = Some u → movable update app = true →
        r.2 = Resolved () ∧ r.1.2 = true
        ∧ r.1.1 !! app = Some u
        ∧ r.1.1 !! update = None
        ∧ ∀ p, p ≠ app → p ≠ update → p ≠ app +:+ ".bk" →
               r.1.1 !! p = disk !! p)
  ∧ (∀ a, updateFails → disk !! app = Some a →
        movable app (app +:+ ".bk") = true →
        movable (app +:+ ".bk") app = true →
        r.2 = Resolved () ∧ r.1.2 = false
        ∧ r.1.1 !! app = Some a
        ∧ r.1.1 !! (app +:+ ".bk") = None
        ∧ ∀ p, p ≠ app +:+ ".bk" → r.1.1 !! p = disk !! p)
  ∧ (∀ a, updateFails → disk !! app = Some a →
        movable app (app +:+ ".bk") = true →
        movable (app +:+ ".bk") app = false →
        (∃ e, r.2 = Rejected e) ∧ r.1.2 = false
        ∧ r.1.1 !! app = None
        ∧ r.1.1 !! (app +:+ ".bk") = Some a
        ∧ ∀ p, p ≠ app → p ≠ app +:+ ".bk" → r.1.1 !! p = disk !! p)
  ∧ (updateFails →
     disk !! app = None ∨ movable app (app +:+ ".bk") = false →
     disk !! (app +:+ ".bk") = None →
     ∃ e, r = (disk, false, Rejected e)).
Proof.
  intros Hua Hub r updateFails. subst r updateFails. fold bk in Hub |- *.
  pose proof bk_ne_app as Hba.
  unfold quitAndInstallAsar, ignoring. fold bk.
  split; [|split; [|split]].
  - intros u Hu Hm.
    assert (∀ disk1, disk1 !! update = Some u →
              (∀ p, p ≠ app → p ≠ bk → disk1 !! p = disk !! p) →
              let d := ignoring (<[app:=u]> (delete update disk1))
                         (unlink bk (<[app:=u]> (delete update disk1))) in
              d !! app = Some u ∧ d !! update = None
              ∧ ∀ p, p ≠ app → p ≠ update → p ≠ bk → d !! p = disk !! p)
      as Hswap.
    { intros disk1 Hu1 Hsame. unfold unlink, ignoring.
      destruct (<[app:=u]> (delete update disk1) !! bk); simpl;
        repeat split; try (intros p H1 H2 H3); lookups; auto. }
    destruct (disk !! app) as [a|] eqn:Ha; [destruct (movable app bk) eqn:Hab|].
    + rewrite (rename_moves _ _ _ _ _ Ha Hab). simpl.
      rewrite (rename_moves _ _ update app u); [|by lookups|done].
      split; [done|]. split; [done|]. apply Hswap; [by lookups|].
      intros p H1 H2. by lookups.
    + destruct (rename_fails movable disk app bk) as [e ->]; [by right|].
      rewrite (rename_moves _ _ _ _ _ Hu Hm).
      split; [done|]. split; [done|]. by apply Hswap.
    + destruct (rename_fails movable disk app bk) as [e ->]; [by left|].
      rewrite (rename_moves _ _ _ _ _ Hu Hm).
      split; [done|]. split; [done|]. by apply Hswap.
  - intros a Hf Ha Hab Hbk.
    rewrite (rename_moves _ _ _ _ _ Ha Hab). simpl.
    destruct (rename_fails movable (<[bk:=a]> (delete app disk)) update app)
      as [e ->]; [destruct Hf; [left; by lookups | by right]|].
    rewrite (rename_moves _ _ bk app a); [|by lookups|done]. simpl.
    repeat split; try (by lookups).
    intros p Hp. destruct (decide (p = app)) as [->|Hpa]; by lookups.
  - intros a Hf Ha Hab Hbk.
    rewrite (rename_moves _ _ _ _ _ Ha Hab). simpl.
    destruct (rename_fails movable (<[bk:=a]> (delete app disk)) update app)
      as [e ->]; [destruct Hf; [left; by lookups | by right]|].
    destruct (rename_fails movable (<[bk:=a]> (delete app disk)) bk app)
      as [e' ->]; [by right|]. simpl.
    repeat split; try (by lookups); eauto.
    intros p H1 H2. by lookups.
  - intros Hf Hno Hb.
    destruct (rename_fails movable disk app bk) as [e1 ->]; [done|].
    destruct (rename_fails movable disk update app) as [e2 ->]; [done|].
    destruct (rename_fails movable disk bk app) as [e3 ->]; [by left|]. eauto.
Qed.

End InstallAsar.

(** A disk with the application and a pending update: where every move is
    possible the update is installed; where the pending update lies on
    another file system the application is put back. *)
Lemma quitAndInstallAsar_swaps_witness :
  (quitAndInstallAsar oneFileSystem "app.asar" "pending_update" appAndUpdate).1.1
    !! "app.asar"
  = Some {| content := [Byte.x32]; readable := true |}
  ∧ (quitAndInstallAsar updateElsewhere "app.asar" "pending_update" appAndUpdate).1.1
    !! "app.asar"
  = Some {| content := [Byte.x31]; readable := true |}.
Proof.
  split.
  - refine (proj1 (proj2 (proj2 (proj1
      (quitAndInstallAsar_swaps oneFileSystem "app.asar" "pending_update" _ _ _)
        {| content := [Byte.x32]; readable := true |} _ _)))); try done.
  - refine (proj1 (proj2 (proj2 (proj1 (proj2
      (quitAndInstallAsar_swaps updateElsewhere "app.asar" "pending_update" _ _ _))
        {| content := [Byte.x31]; readable := true |} _ _ _ _)))); try done.
    by right.
Defined.

(** [validate_compares_checksum] for a file whose checksum is the expected
    one. *)
Lemma validate_compares_checksum_witness :
  validate errorPageEnv sha "pending_update" "https://cdn/app.asar"
  = (sha, Resolved ()).
Proof.
  exact (validate_compares_checksum errorPageEnv sha "pending_update"
           "https://cdn/app.asar" eq_refl ltac:(discriminate)).
Defined.

(** [validate_malformed_checksum_accepts] for a checksum file that is an
    error page: the file passes and the page is kept as the checksum. *)
Lemma validate_malformed_checksum_accepts_witness :
  validate errorPageEnv "" "pending_update" "https://cdn/app.asar"
  = ("<html>404</html>", Resolved ()).
Proof.
  refine (proj1 (proj2 (validate_malformed_checksum_accepts errorPageEnv
            "pending_update" "https://cdn/app.asar"))
          "<html>404</html>" _ eq_refl _); [discriminate | simpl; lia].
Defined.

(** [selfHost_incremental_names_asar] for the release [v0.30.0] on Linux. *)
Lemma selfHost_incremental_names_asar_witness :
  ∃ f, f ∈ files (getUpdateFromSelfHost "0.29.0" "linux" release030)
       ∧ asarUrls "https://a" "https://b" "linux" "v0.30.0"
         = ["https://a" +:+ "/" +:+ file_name f; "https://b" +:+ "/" +:+ file_name f].
Proof.
  refine (proj1 (selfHost_incremental_names_asar "https://a" "https://b"
                   "linux" "0.29.0" "linux" release030 _ _) eq_refl);
    split; discriminate.
Defined.

(** ** What the provider's answer does to the session *)

Section ProviderOutcomes.

Implicit Types (svc : UserService) (u p : UserProfile) (e : Error).

Lemma aborted_fresh_controller svc (f : UserService → UserService) :
  controllers (f (newAbortController svc).2) = controllers svc ++ [false] →
  aborted (length (controllers svc)) (f (newAbortController svc).2) = false.
Proof.
  intros E. unfold aborted. rewrite E.
  by rewrite lookup_app_r, Nat.sub_diag.
Qed.

(** X9: a login the provider accepts stores the account under its id and
    selects it.  The call resolves with the account, which is then the
    selected one; every other account, the client token and the endpoint
    list are as before, and the login controller is cleared. *)
Theorem login_stores_and_selects (options : LoginOptions) svc p :
  AccountSystem.login (system (service options) svc) options false = Resolved p →
  let r := login options svc in
  r.2 = Resolved p
  ∧ selectedUser (state r.1) = uid p
  ∧ user (state r.1) = Some p
  ∧ (∀ k, k ≠ uid p → get k (users (state r.1)) = get k (users (state svc)))
  ∧ clientToken (state r.1) = clientToken (state svc)
  ∧ yggdrasilServices (state r.1) = yggdrasilServices (state svc)
  ∧ loginController r.1 = None.
Proof.
  intros Hp r. subst r. unfold login, run, login_begin. simpl.
  rewrite (aborted_fresh_controller svc (with_loginController _)) by done.
  rewrite Hp. simpl. repeat split.
  - unfold user. simpl. apply get_set_eq.
  - intros k Hk. by apply get_set_ne.
Qed.

(** X10: a provider call that fails leaves the session as it was.  For
    [login], [refreshUser] and [uploadSkin] alike, a rejection of the
    provider (for any reason) is the rejection of the call, the session
    state is unchanged and the controller of the operation is cleared. *)
Theorem rejected_provider_call_keeps_state svc e :
  (∀ options,
      AccountSystem.login (system (service options) svc) options false = Rejected e →
      (login options svc).2 = Rejected e
      ∧ state (login options svc).1 = state svc
      ∧ loginController (login options svc).1 = None)
  ∧ (∀ u, user (state svc) = Some u →
      refresh (system (authService u) svc) u false = Rejected e →
      (refreshUser svc).2 = Rejected e
      ∧ state (refreshUser svc).1 = state svc
      ∧ refreshController (refreshUser svc).1 = None)
  ∧ (∀ options u g,
      get (default (selectedUser (state svc)) (userId options)) (users (state svc))
      = Some u →
      profiles u !! profileKey options u = Some g →
      setSkin (system (authService u) svc) u g (defaultSlim options) false
      = Rejected e →
      (uploadSkin options svc).2 = Rejected e
      ∧ state (uploadSkin options svc).1 = state svc
      ∧ setSkinController (uploadSkin options svc).1 = None).
Proof.
  split; [|split].
  - intros options Hr. unfold login, run, login_begin. simpl.
    rewrite (aborted_fresh_controller svc (with_loginController _)) by done.
    by rewrite Hr.
  - intros u Hu Hr. unfold refreshUser, run, refreshUser_begin. rewrite Hu.
    simpl.
    rewrite (aborted_fresh_controller svc (with_refreshController _)) by done.
    by rewrite Hr.
  - intros options u g Hu Hg Hr. unfold uploadSkin, run, uploadSkin_begin.
    rewrite Hu, Hg. simpl.
    rewrite (aborted_fresh_controller svc (with_setSkinController _)) by done.
    by rewrite Hr.
Qed.

(** X11: [selectUser] is not undone by a failed refresh.  When the account
    exists, is not the selected one, and its provider rejects the refresh,
    [selectUser] rejects with that error and the account is selected all the
    same; the accounts themselves are unchanged. *)
Theorem selectUser_rejected_still_selects (userId : string) svc u e :
  userId ≠ selectedUser (state svc) →
  get userId (users (state svc)) = Some u →
  refresh (system (authService u) svc) u false = Rejected e →
  (selectUser userId svc).2 = Rejected e
  ∧ selectedUser (state (selectUser userId svc).1) = userId
  ∧ users (state (selectUser userId svc).1) = users (state svc).
Proof.
  intros Hne Hu Hr. unfold selectUser, run, selectUser_begin.
  rewrite decide_False by done.
  unfold refreshUser_begin, user. simpl. rewrite Hu. simpl.
  rewrite (aborted_fresh_controller
             (with_state (userSelect userId (state svc)) svc)
             (with_refreshController _)) by done.
  change (system (authService u) (with_state (userSelect userId (state svc)) svc))
    with (system (authService u) svc).
  by rewrite Hr.
Qed.

End ProviderOutcomes.

(** [login_stores_and_selects] on a fresh service. *)
Lemma login_stores_and_selects_witness :
  (login steve fresh).2 = Resolved (account "steve" "main")
  ∧ selectedUser (state (login steve fresh).1) = "steve".
Proof.
  destruct (login_stores_and_selects steve fresh (account "steve" "main") eq_refl)
    as (Hout & Hsel & _).
  split; assumption.
Defined.

(** [selectUser_rejected_still_selects] with accounts A and B and a
    provider that rejects the refresh. *)
Lemma selectUser_rejected_still_selects_witness :
  (selectUser "B" serviceAB_expired).2 = Rejected (OtherError "invalid token")
  ∧ selectedUser (state (selectUser "B" serviceAB_expired).1) = "B".
Proof.
  destruct (selectUser_rejected_still_selects "B" serviceAB_expired
              (account "B" "pb") (OtherError "invalid token"))
    as (Hout & Hsel & _); [done | reflexivity | reflexivity |].
  split; assumption.
Defined.

(** [rejected_provider_call_keeps_state] for a refresh on the same service. *)
Lemma rejected_provider_call_keeps_state_witness :
  (refreshUser serviceAB_expired).2 = Rejected (OtherError "invalid token")
  ∧ state (refreshUser serviceAB_expired).1 = state serviceAB_expired.
Proof.
  destruct (proj1 (proj2 (rejected_provider_call_keeps_state serviceAB_expired
                            (OtherError "invalid token")))
              (account "A" "pa") eq_refl eq_refl) as (Hout & Hstate & _).
  split; assumption.
Defined.

(** ** Which accounts there are *)

Section Accounts.

Implicit Types (svc : UserService) (u p : UserProfile) (k : string).

Lemma get_set_is_Some {V : Type} (o : Obj V) k k' (v : V) :
  is_Some (get k o) → is_Some (get k (set k' v o)).
Proof.
  intros H. destruct (decide (k' = k)) as [->|Hne].
  - rewrite get_set_eq. eauto.
  - by rewrite get_set_ne.
Qed.

Lemma del_absent {V : Type} (o : Obj V) k : get k o = None → del k o = o.
Proof.
  induction o as [|[k' v] o IH]; simpl; [done|].
  destruct (decide (k' = k)); [done|]. intros H. by rewrite IH.
Qed.

Lemma keys_set_present {V : Type} (o : Obj V) k (v : V) :
  is_Some (get k o) → keys (set k v o) = keys o.
Proof.
  unfold keys. induction o as [|[k' v'] o IH]; simpl.
  - by intros [? ?].
  - destruct (decide (k' = k)) as [->|Hne]; simpl; [done|].
    intros H. f_equal. by apply IH.
Qed.

Lemma keys_set_absent {V : Type} (o : Obj V) k (v : V) :
  get k o = None → keys (set k v o) = keys o ++ [k].
Proof.
  unfold keys. induction o as [|[k' v'] o IH]; simpl; [done|].
  destruct (decide (k' = k)) as [->|Hne]; simpl; [done|].
  intros H. f_equal. by apply IH.
Qed.

Lemma userProfile_keeps k p (s : UserState) :
  is_Some (get k (users s)) → is_Some (get k (users (userProfile p s))).
Proof. apply get_set_is_Some. Qed.

Lemma removeUserProfile_users userId svc :
  users (state (removeUserProfile userId svc).1) = del userId (users (state svc)).
Proof.
  unfold removeUserProfile. simpl.
  destruct (decide (selectedUser (state svc) = userId)); [|done].
  by destruct (find _ _).
Qed.

(** One event removes no account, unless it is the removal of that account. *)
Lemma step_keeps_account e svc k :
  e ≠ RemoveUserProfile k →
  is_Some (get k (users (state svc))) →
  is_Some (get k (users (state (step e svc)))).
Proof.
  intros He Hk.
  destruct e as [o|result|o|result| |result|id|pid|id|p|nm sys| |]; cbn [step].
  - done.
  - destruct result as [p|]; simpl; [|done]. by apply get_set_is_Some.
  - by rewrite uploadSkin_begin_state.
  - destruct result as [p|]; simpl; [|done]. by apply get_set_is_Some.
  - by rewrite refreshUser_begin_state.
  - destruct result as [p|]; simpl; [|done]. by apply get_set_is_Some.
  - unfold selectUser_begin. case_decide; [done|].
    by rewrite refreshUser_begin_state.
  - unfold selectGameProfile. destruct (user (state svc)); [|done]. simpl.
    unfold userGameProfileSelect.
    destruct (get (selectedUser (state svc)) (users (state svc))); [|done].
    by apply get_set_is_Some.
  - rewrite removeUserProfile_users. rewrite get_del_ne; [done|]. congruence.
  - simpl. by apply get_set_is_Some.
  - done.
  - unfold abortLogin. by destruct (loginController svc).
  - unfold abortRefresh. by destruct (refreshController svc).
Qed.

(** X12: only [removeUserProfile] removes an account.  Through any events
    of the service, in any order and with any answers of the providers, an
    account stays in the session as long as [removeUserProfile] is not
    called with its id. *)
Theorem accounts_removed_only_by_removeUserProfile (es : list Event) svc k :
  Forall (λ e, e ≠ RemoveUserProfile k) es →
  is_Some (get k (users (state svc))) →
  is_Some (get k (users (state (steps es svc)))).
Proof.
  intros Hes. revert svc. induction Hes as [|e es He _ IH]; intros svc Hk.
  - done.
  - simpl. apply IH. by apply step_keeps_account.
Qed.

(** X13: [removeUserProfile(id)] removes that account and no other.  The
    account is gone afterwards, every other account is as before, and the
    selection is unchanged when another account was selected.  For an id
    that has no account and is not selected the call changes nothing. *)
Theorem removeUserProfile_removes_exactly (userId : string) svc :
  let r := removeUserProfile userId svc in
  r.2 = Resolved ()
  ∧ get userId (users (state r.1)) = None
  ∧ (∀ k, k ≠ userId → get k (users (state r.1)) = get k (users (state svc)))
  ∧ (selectedUser (state svc) ≠ userId →
     selectedUser (state r.1) = selectedUser (state svc))
  ∧ (selectedUser (state svc) ≠ userId →
     get userId (users (state svc)) = None → r.1 = svc).
Proof.
  intros r. subst r. split; [done|].
  rewrite removeUserProfile_users.
  split; [apply get_del_eq|].
  split; [intros k Hk; apply get_del_ne; congruence|].
  unfold removeUserProfile. simpl.
  destruct (decide (selectedUser (state svc) = userId)) as [E|Hne];
    [by split|].
  unfold userProfileRemove.
  destruct (decide (selectedUser (state svc) = userId)); [done|].
  split; [done|].
  intros _ Hnone. rewrite (del_absent _ _ Hnone). by destruct svc as [[]].
Qed.

Lemma getAccountSystem_own (name : string) svc :
  inherited name = false → getAccountSystem name svc = accountSystems svc !! name.
Proof.
  intros Hn. unfold getAccountSystem. rewrite Hn.
  by destruct (accountSystems svc !! name).
Qed.

(** X14: a registered provider serves the logins of its service.  After
    [registerAccountSystem(name, sys)], for a [name] other than [__proto__]
    (an assignment to that name sets the prototype of the registry instead
    of a property), [getAccountSystem(name)] is [sys] and a login with
    [options.service = name] calls [sys]; the other services resolve as they
    did before; the session state is not touched.  [getAccountSystem] is
    [undefined] exactly for the names that are neither registered nor
    members of [Object.prototype], and these are served by the Yggdrasil
    provider; a name that is not registered but inherited finds the
    inherited member, which is no provider. *)
Theorem registered_system_serves_login
  (name : string) (sys : UserAccountSystem) (options : LoginOptions) svc :
  name ≠ "__proto__" →
  let svc' := registerAccountSystem name sys svc in
  getAccountSystem name svc' = Some sys
  ∧ state svc' = state svc
  ∧ (service options = name →
     ∃ svc1 c, login_begin options svc' = (svc1, Await (AwaitLogin sys options c)))
  ∧ (service options ≠ name →
     getAccountSystem (service options) svc'
     = getAccountSystem (service options) svc
     ∧ system (service options) svc' = system (service options) svc)
  ∧ (getAccountSystem (service options) svc = None
     ↔ accountSystems svc !! service options = None
       ∧ inherited (service options) = false)
  ∧ (getAccountSystem (service options) svc = None →
     provided (service options) svc
     ∧ system (service options) svc = yggdrasilAccountSystem svc)
  ∧ (accountSystems svc !! service options = None →
     inherited (service options) = true →
     ¬ provided (service options) svc
     ∧ getAccountSystem (service options) svc = Some notAProvider).
Proof.
  intros _ svc'. subst svc'. unfold getAccountSystem, registerAccountSystem.
  simpl. split; [by rewrite lookup_insert_eq|]. split; [done|].
  split; [|split; [|split; [|split]]].
  - intros <-. unfold login_begin, system. simpl.
    rewrite lookup_insert_eq. simpl. eauto.
  - intros Hne. unfold system. simpl. by rewrite lookup_insert_ne.
  - destruct (accountSystems svc !! service options) as [s|]; [by split; [|intros []]|].
    destruct (inherited (service options)); [by split; [|intros []]| done].
  - unfold system, provided.
    destruct (accountSystems svc !! service options) as [s|]; [done|].
    destruct (inherited (service options)); [done | auto].
  - intros Hnone Hin. rewrite Hnone, Hin. split; [|done].
    unfold provided. rewrite Hnone, Hin. intros [[s ?] | ?]; done.
Qed.

End Accounts.

(** [registered_system_serves_login] for a provider registered for
    Microsoft accounts on a fresh service: it is found under that name, and
    a login of another service is still served by the Yggdrasil provider. *)
Lemma registered_system_serves_login_witness :
  getAccountSystem "microsoft" (registerAccountSystem "microsoft" expiredSystem fresh)
  = Some expiredSystem
  ∧ system (service steve) (registerAccountSystem "microsoft" expiredSystem fresh)
    = system (service steve) fresh.
Proof.
  destruct (registered_system_serves_login "microsoft" expiredSystem steve fresh)
    as (Hget & _ & _ & Hother & _); [done|].
  split; [exact Hget | apply Hother; done].
Defined.

(** [accounts_removed_only_by_removeUserProfile] for account B through the
    removal of A and a login. *)
Lemma accounts_removed_only_by_removeUserProfile_witness :
  is_Some (get "B" (users (state (steps
     [RemoveUserProfile "A"; LoginBegin steve;
      LoginResume (Resolved (account "steve" "main"))] serviceAB)))).
Proof.
  apply accounts_removed_only_by_removeUserProfile.
  - repeat constructor; discriminate.
  - by eexists.
Defined.

(** ** Operations from start to end *)

Section Completion.

Implicit Types (svc : UserService) (u p : UserProfile).

Lemma run_idle {R : Type} begin resume svc :
  (∀ svc1 (result : Outcome R), begin svc = (svc1, Return result) → idle svc1) →
  (∀ svc1 call out, begin svc = (svc1, Await call) → idle (resume out svc1).1) →
  idle (@run R begin resume id svc).1.
Proof.
  intros Hreturn Hawait. unfold run.
  destruct (begin svc) as [svc1 [result|call]] eqn:E; simpl.
  - by eapply Hreturn.
  - by eapply Hawait.
Qed.

Lemma refreshUser_idle svc : idle svc → idle (refreshUser svc).1.
Proof.
  intros (Hl & Hr & Hs). apply run_idle; unfold refreshUser_begin.
  - intros svc1 result. destruct (user (state svc)); [done|].
    by intros [= <- _].
  - intros svc1 call out. destruct (user (state svc)); [|done].
    simpl. intros [= <- _]. unfold refreshUser_resume.
    by destruct out.
Qed.

(** X15: no controller outlives its operation, as long as the service
    names in play resolve to providers.  On a service with no controller
    set, [login], [refreshUser], [selectUser] and [uploadSkin] whose service
    name is [provided], run to their end with whatever outcome of the
    provider, leave no controller set, and so do [selectGameProfile] and
    [removeUserProfile]; [abortLogin()] and [abortRefresh()] called
    afterwards change nothing.  (A name that is not [provided] finds a
    member of [Object.prototype]: the call of its method throws before the
    [finally] handler is attached.) *)
Theorem operations_end_idle svc :
  idle svc →
  (∀ options, provided (service options) svc → idle (login options svc).1)
  ∧ ((∀ u, user (state svc) = Some u → provided (authService u) svc) →
     idle (refreshUser svc).1)
  ∧ (∀ userId,
       (∀ u, get userId (users (state svc)) = Some u →
             provided (authService u) svc) →
       idle (selectUser userId svc).1)
  ∧ (∀ options,
       (∀ u, get (default (selectedUser (state svc)) (userId options))
               (users (state svc)) = Some u →
             provided (authService u) svc) →
       idle (uploadSkin options svc).1)
  ∧ (∀ profileId, idle (selectGameProfile profileId svc).1)
  ∧ (∀ userId, idle (removeUserProfile userId svc).1)
  ∧ (∀ svc', idle svc' → abortLogin svc' = svc' ∧ abortRefresh svc' = svc').
Proof.
  intros Hidle. pose proof Hidle as (Hl & Hr & Hs).
  split; [|split; [|split; [|split; [|split; [|split]]]]].
  - intros options _. apply run_idle; unfold login_begin; simpl.
    + done.
    + intros svc1 call out [= <- _]. unfold login_resume. by destruct out.
  - intros _. by apply refreshUser_idle.
  - intros userId _. unfold selectUser, run, selectUser_begin.
    destruct (decide (userId = selectedUser (state svc))); [done|].
    exact (refreshUser_idle (with_state (userSelect userId (state svc)) svc) Hidle).
  - intros options _. apply run_idle; unfold uploadSkin_begin.
    + intros svc1 result. destruct (get _ _) as [u|]; [|by intros [= <- _]].
      destruct (profiles u !! _); [done | by intros [= <- _]].
    + intros svc1 call out. destruct (get _ _) as [u|]; [|done].
      destruct (profiles u !! _); [|done].
      simpl. intros [= <- _]. unfold uploadSkin_resume. by destruct out.
  - intros profileId. unfold selectGameProfile.
    by destruct (user (state svc)).
  - intros userId. unfold removeUserProfile. simpl.
    case_decide; [destruct (find _ _)|]; done.
  - intros svc' (Hl' & Hr' & _). unfold abortLogin, abortRefresh.
    by rewrite Hl', Hr'.
Qed.

(** X16: what a skin upload stores.  When the account and the game profile
    the call resolves to exist, the account's service is [provided] and the
    provider answers with an account, [uploadSkin] resolves, that account is
    stored under its id, the selection and every other account are as before
    and the controller is cleared.  When the account has no game profile
    under the key and the key is no member of [Object.prototype], the call
    throws a [TypeError] before any provider call and changes nothing. *)
Theorem uploadSkin_stores_result (options : UploadSkinOptions) svc u :
  get (default (selectedUser (state svc)) (userId options)) (users (state svc))
  = Some u →
  (∀ g data,
      provided (authService u) svc →
      profiles u !! profileKey options u = Some g →
      setSkin (system (authService u) svc) u g (defaultSlim options) false
      = Resolved data →
      (uploadSkin options svc).2 = Resolved ()
      ∧ get (uid data) (users (state (uploadSkin options svc).1)) = Some data
      ∧ (∀ k, k ≠ uid data →
              get k (users (state (uploadSkin options svc).1))
              = get k (users (state svc)))
      ∧ selectedUser (state (uploadSkin options svc).1) = selectedUser (state svc)
      ∧ setSkinController (uploadSkin options svc).1 = None)
  ∧ (profiles u !! profileKey options u = None →
     inherited (profileKey options u) = false →
     ∃ message,
       uploadSkin_begin options svc = (svc, Return (Rejected (TypeError message)))
       ∧ uploadSkin options svc = (svc, Rejected (TypeError message))).
Proof.
  intros Hu. split.
  - intros g data _ Hg Hr. unfold uploadSkin, run, uploadSkin_begin.
    rewrite Hu, Hg. simpl.
    rewrite (aborted_fresh_controller svc (with_setSkinController _)) by done.
    rewrite Hr. simpl. repeat split.
    + apply get_set_eq.
    + intros k Hk. by apply get_set_ne.
  - intros Hg _. eexists. unfold uploadSkin, run, uploadSkin_begin.
    rewrite Hu, Hg. split; reflexivity.
Qed.

(** X17: [selectGameProfile] changes one field of one account.  With an
    account selected, that account keeps everything but [selectedProfile],
    which becomes the id given (whether or not it is one of its profiles);
    the selection, the other accounts and the order of the accounts are as
    before.  With no account selected nothing changes. *)
Theorem selectGameProfile_sets_profile (profileId : string) svc :
  let r := selectGameProfile profileId svc in
  r.2 = Resolved ()
  ∧ selectedUser (state r.1) = selectedUser (state svc)
  ∧ keys (users (state r.1)) = keys (users (state svc))
  ∧ (∀ k, k ≠ selectedUser (state svc) →
          get k (users (state r.1)) = get k (users (state svc)))
  ∧ (∀ u, user (state svc) = Some u →
          user (state r.1) = Some (with_selectedProfile profileId u))
  ∧ (user (state svc) = None → r.1 = svc).
Proof.
  intros r. subst r. unfold selectGameProfile.
  destruct (user (state svc)) as [u|] eqn:Hu; [|done].
  unfold userGameProfileSelect. unfold user in Hu. rewrite Hu. simpl.
  split; [done|]. split; [done|]. split; [|split; [|split; [|done]]].
  - apply keys_set_present. rewrite Hu. eauto.
  - intros k Hk. by apply get_set_ne.
  - intros u' [= <-]. unfold user. simpl. apply get_set_eq.
Qed.

End Completion.

(** [operations_end_idle] on the service with accounts A and B, whose
    service names are not inherited ones. *)
Lemma operations_end_idle_witness :
  idle (login steve serviceAB).1 ∧ idle (selectUser "B" serviceAB).1.
Proof.
  destruct (operations_end_idle serviceAB) as (Hlogin & _ & Hselect & _).
  - by repeat split.
  - split.
    + apply Hlogin. right. reflexivity.
    + apply Hselect. intros u Hu. vm_compute in Hu. injection Hu as <-.
      right. reflexivity.
Defined.

(** [uploadSkin_stores_result] on the same service. *)
Lemma uploadSkin_stores_result_witness :
  (uploadSkin (skinOnly None) serviceAB).2 = Resolved ()
  ∧ get "A" (users (state (uploadSkin (skinOnly None) serviceAB).1))
    = Some (account "A" "pa").
Proof.
  destruct (proj1 (uploadSkin_stores_result (skinOnly None) serviceAB
                     (account "A" "pa") eq_refl)
              {| gid := "pa"; name := "A" |} (account "A" "pa")
              (or_intror eq_refl) eq_refl eq_refl)
    as (Hout & Hget & _).
  split; assumption.
Defined.

(** ** The official account, and the endpoint list *)

Section Official.

Context (tokenStorageGet : UserProfile → Outcome (option string)).

Implicit Types (svc : UserService) (u : UserProfile).

(** X18: [getOfficialUserProfile] reads and never writes.  The session
    state, the three controller fields and the registry are as before.
    Without a Microsoft account the result is [undefined].  With one, the
    result is the stored account with its token: the provider registered
    as ["microsoft"] is asked to refresh it, but what it returns is not
    used; if none is registered nothing is asked (the Yggdrasil provider is
    no fallback here); if the refresh is rejected, so is the call. *)
Theorem getOfficialUserProfile_reads_only svc :
  let r := getOfficialUserProfile tokenStorageGet svc in
  let found :=
    find (λ u, bool_decide (authService u = "microsoft"))
      (values (users (state svc))) in
  state r.1 = state svc
  ∧ loginController r.1 = loginController svc
  ∧ refreshController r.1 = refreshController svc
  ∧ setSkinController r.1 = setSkinController svc
  ∧ accountSystems r.1 = accountSystems svc
  ∧ (found = None → r = (svc, Resolved None))
  ∧ (∀ u token, found = Some u → tokenStorageGet u = Resolved token →
       (getAccountSystem "microsoft" svc = None →
        r.2 = Resolved (Some (u, token)))
       ∧ (∀ sys u', getAccountSystem "microsoft" svc = Some sys →
                    refresh sys u false = Resolved u' →
                    r.2 = Resolved (Some (u, token)))
       ∧ (∀ sys e, getAccountSystem "microsoft" svc = Some sys →
                   refresh sys u false = Rejected e →
                   r.2 = Rejected e)).
Proof.
  intros r found. subst r found.
  rewrite (getAccountSystem_own "microsoft" svc) by reflexivity.
  unfold getOfficialUserProfile.
  destruct (find _ _) as [u|] eqn:F.
  - simpl. do 5 (split; [reflexivity|]). split; [done|].
    intros u0 token [= <-] Htoken.
    pose proof (aborted_new svc) as Hab. unfold newAbortController in Hab.
    simpl in Hab. rewrite Hab.
    split; [|split].
    + intros ->. simpl. by rewrite Htoken.
    + intros sys u' -> Hr. rewrite Hr. simpl. by rewrite Htoken.
    + intros sys e -> Hr. by rewrite Hr.
  - do 5 (split; [reflexivity|]). split; [done|]. by intros u token.
Qed.

End Official.

Section Endpoints.

Implicit Types (svc : UserService) (a : YggdrasilApi).

(** X19: [removeYggdrasilAccountSystem(url)] drops exactly the endpoints
    with that url.  The endpoints left are those of another url, in their
    order; the accounts and the selection are untouched, also the accounts
    that were authenticated through the endpoint; a second removal, or the
    removal of a url that is not listed, changes nothing. *)
Theorem removeYggdrasilAccountSystem_drops_url (url : string) svc :
  let r := removeYggdrasilAccountSystem url svc in
  r.2 = Resolved ()
  ∧ (∀ a, a ∈ yggdrasilServices (state r.1)
          ↔ a ∈ yggdrasilServices (state svc) ∧ UserState.url a ≠ url)
  ∧ yggdrasilServices (state r.1) `sublist_of` yggdrasilServices (state svc)
  ∧ users (state r.1) = users (state svc)
  ∧ selectedUser (state r.1) = selectedUser (state svc)
  ∧ (removeYggdrasilAccountSystem url r.1).1 = r.1
  ∧ (Forall (λ a, UserState.url a ≠ url) (yggdrasilServices (state svc)) →
     r.1 = svc).
Proof.
  intros r. subst r. unfold removeYggdrasilAccountSystem. simpl.
  assert (Hfilter : ∀ l : list YggdrasilApi,
            Forall (λ a, UserState.url a ≠ url) l →
            List.filter (λ a, bool_decide (UserState.url a ≠ url)) l = l).
  { induction 1 as [|a l Ha _ IH]; simpl; [done|].
    by rewrite (bool_decide_eq_true_2 _ Ha), IH. }
  split; [done|]. split; [|split; [|split; [done|split; [done|split]]]].
  - intros a. rewrite !list_elem_of_In, filter_In.
    by rewrite bool_decide_eq_true.
  - induction (yggdrasilServices (state svc)) as [|a l IH]; simpl; [done|].
    destruct (bool_decide _); by constructor.
  - unfold userYggdrasilServices, with_yggdrasilServices, with_state. simpl.
    f_equal. f_equal. apply Hfilter. apply Forall_forall.
    intros a Ha%list_elem_of_In%filter_In. destruct Ha as [_ Ha].
    by apply bool_decide_eq_true in Ha.
  - intros Hall. rewrite (Hfilter _ Hall). by destruct svc as [[]].
Qed.

Lemma substring_whole (s : string) : String.substring 0 (String.length s) s = s.
Proof. induction s as [|c s IH]; simpl; [done | by rewrite IH]. Qed.

Lemma startsWith_app (p r : string) : ElectronUpdater.startsWith (p +:+ r) p = true.
Proof.
  unfold ElectronUpdater.startsWith. induction p as [|c p IH]; simpl.
  - by destruct r.
  - destruct (Ascii.ascii_dec c c); [done | congruence].
Qed.

Lemma substringFrom_app (p r : string) :
  ElectronUpdater.substringFrom (String.length p) (p +:+ r) = r.
Proof.
  unfold ElectronUpdater.substringFrom. rewrite length_string_app.
  replace (String.length p + String.length r - String.length p)
    with (String.length r) by lia.
  induction p as [|c p IH]; simpl; [apply substring_whole | exact IH].
Qed.

(** X20: [addYggdrasilAccountSystem] accepts the address with its scheme.
    An address prefixed with [authlib-injector:] is handled as the address
    without it, and so is one prefixed with [yggdrasil-server:] or with both
    in this order, as long as what follows carries neither prefix again.
    Whatever fails (decoding, parsing, loading the descriptor), the call
    rejects and the service is unchanged; on success only the session state
    changes, by [userYggdrasilServicePut] of the loaded descriptor. *)
Theorem addYggdrasilAccountSystem_strips_scheme (env : EndpointEnv) (rest : string) svc :
  ElectronUpdater.startsWith rest "authlib-injector:" = false →
  ElectronUpdater.startsWith rest "yggdrasil-server:" = false →
  addYggdrasilAccountSystem env ("authlib-injector:" +:+ rest) svc
  = addYggdrasilAccountSystem env rest svc
  ∧ addYggdrasilAccountSystem env ("yggdrasil-server:" +:+ rest) svc
    = addYggdrasilAccountSystem env rest svc
  ∧ addYggdrasilAccountSystem env ("authlib-injector:yggdrasil-server:" +:+ rest) svc
    = addYggdrasilAccountSystem env rest svc
  ∧ (∀ url e, (addYggdrasilAccountSystem env url svc).2 = Rejected e →
              (addYggdrasilAccountSystem env url svc).1 = svc)
  ∧ (∀ api, (decoded ← decodeURIComponent env rest;
             _ ← urlHost env decoded;
             loadYggdrasilApiProfile env decoded) = Resolved api →
            addYggdrasilAccountSystem env rest svc
            = (with_state (userYggdrasilServicePut env api (state svc)) svc,
               Resolved ())).
Proof.
  intros Ha Hy.
  assert (Hya : ElectronUpdater.startsWith ("yggdrasil-server:" +:+ rest)
                  "authlib-injector:" = false) by reflexivity.
  split; [|split; [|split; [|split]]].
  - unfold addYggdrasilAccountSystem.
    by rewrite startsWith_app, substringFrom_app, Ha.
  - unfold addYggdrasilAccountSystem.
    by rewrite Hya, startsWith_app, substringFrom_app, Ha, Hy.
  - unfold addYggdrasilAccountSystem.
    change ("authlib-injector:yggdrasil-server:" +:+ rest)
      with ("authlib-injector:" +:+ ("yggdrasil-server:" +:+ rest)).
    rewrite startsWith_app, substringFrom_app.
    by rewrite startsWith_app, substringFrom_app, Ha, Hy.
  - intros url e. unfold addYggdrasilAccountSystem.
    by destruct (_ ≫= _).
  - intros api Hapi. unfold addYggdrasilAccountSystem. rewrite Ha, Hy.
    by rewrite Hapi.
Qed.

End Endpoints.

(** [addYggdrasilAccountSystem_strips_scheme] for the address of a deep
    link. *)
Lemma addYggdrasilAccountSystem_strips_scheme_witness :
  addYggdrasilAccountSystem plainEndpoints
    "authlib-injector:yggdrasil-server:https://ely.by" fresh
  = addYggdrasilAccountSystem plainEndpoints "https://ely.by" fresh.
Proof.
  exact (proj1 (proj2 (proj2 (addYggdrasilAccountSystem_strips_scheme
           plainEndpoints "https://ely.by" fresh eq_refl eq_refl)))).
Defined.

(** [getOfficialUserProfile_reads_only] with accounts A and M: the provider
    registered for Microsoft rejects the refresh. *)
Lemma getOfficialUserProfile_reads_only_witness :
  (getOfficialUserProfile (λ _, Resolved (Some "token")) serviceAM).2
  = Rejected (OtherError "invalid token").
Proof.
  destruct (getOfficialUserProfile_reads_only (λ _, Resolved (Some "token")) serviceAM)
    as (_ & _ & _ & _ & _ & _ & Hfound).
  destruct (Hfound official (Some "token") eq_refl eq_refl) as (_ & _ & Hrej).
  exact (Hrej expiredSystem (OtherError "invalid token") eq_refl eq_refl).
Defined.

(** ** Removing logs *)

Section RemoveLog.

Context (env : Env).

Implicit Types (disk : gmap string File) (name : string).

(** X21: a removed log reads as empty.  After [removeLog(name)] succeeds,
    only that file is gone, [getLogContent(name)] returns the empty string
    and a second [removeLog(name)] rejects.  For a log that is not there
    the two differ: [removeLog] rejects, [getLogContent] returns the empty
    string. *)
Theorem removeLog_then_getLogContent name disk :
  let filePath := join env [instancePath env; "logs"; name] in
  (∀ disk', removeLog env name disk = Resolved disk' →
      is_Some (disk !! filePath)
      ∧ disk' = delete filePath disk
      ∧ getLogContent (onDisk env disk') name = Resolved ""
      ∧ ∃ e, removeLog env name disk' = Rejected e)
  ∧ (disk !! filePath = None →
      (∃ e, removeLog env name disk = Rejected e)
      ∧ getLogContent (onDisk env disk) name = Resolved "").
Proof.
  intros filePath.
  assert (Hgone : ∀ d, d !! filePath = None →
            getLogContent (onDisk env d) name = Resolved "").
  { intros d Hd. unfold getLogContent, onDisk. simpl. fold filePath.
    unfold readFile. by rewrite Hd. }
  unfold removeLog, ElectronUpdater.unlink. fold filePath. split.
  - intros disk'. destruct (disk !! filePath) as [f|] eqn:E; [|done].
    intros [= <-]. split; [eauto|]. split; [done|].
    split; [apply Hgone, lookup_delete_eq|].
    rewrite lookup_delete_eq. eauto.
  - intros E. rewrite E. split; [eauto | by apply Hgone].
Qed.

End RemoveLog.

(** [removeLog_then_getLogContent] for the log [latest.log]. *)
Lemma removeLog_then_getLogContent_witness :
  getLogContent
    (onDisk guesslessEnv
       (delete "/instances/vanilla/logs/latest.log"
          ({[ "/instances/vanilla/logs/latest.log"
              := {| content := [Byte.x68; Byte.x69]; readable := true |} ]}
           : gmap string File)))
    "latest.log"
  = Resolved "".
Proof.
  exact (proj1 (proj2 (proj2 (proj1
    (removeLog_then_getLogContent guesslessEnv "latest.log"
       {[ "/instances/vanilla/logs/latest.log"
          := {| content := [Byte.x68; Byte.x69]; readable := true |} ]})
    _ eq_refl)))).
Defined.

(** ** Refreshing, and aborting one operation among several *)

Section RefreshAndAbort.

Implicit Types (svc : UserService) (u : UserProfile).

(** X22: a refresh the provider answers replaces the selected account.
    [refreshUser] resolves and stores the answer under its id; when that is
    the id of the selected account, the answer is the selected account
    afterwards and the accounts keep their order; the selection is not
    changed.  With no account under the selected id, nothing happens and no
    provider is called. *)
Theorem refreshUser_replaces_selected svc :
  (∀ u u', user (state svc) = Some u →
      refresh (system (authService u) svc) u false = Resolved u' →
      (refreshUser svc).2 = Resolved ()
      ∧ get (uid u') (users (state (refreshUser svc).1)) = Some u'
      ∧ selectedUser (state (refreshUser svc).1) = selectedUser (state svc)
      ∧ (uid u' = selectedUser (state svc) →
         user (state (refreshUser svc).1) = Some u'
         ∧ keys (users (state (refreshUser svc).1)) = keys (users (state svc)))
      ∧ (∀ k, k ≠ uid u' →
              get k (users (state (refreshUser svc).1)) = get k (users (state svc))))
  ∧ (user (state svc) = None →
     refreshUser_begin svc = (svc, Return (Resolved ()))
     ∧ refreshUser svc = (svc, Resolved ())).
Proof.
  split.
  - intros u u' Hu Hr.
    destruct (refreshUser_resolved svc u u' Hu Hr) as (_ & Hout & Hstate).
    rewrite Hout, Hstate. simpl.
    split; [done|]. split; [apply get_set_eq|]. split; [done|]. split.
    + intros E. unfold user. simpl. rewrite <- E. split; [apply get_set_eq|].
      apply keys_set_present. rewrite E. unfold user in Hu. rewrite Hu. eauto.
    + intros k Hk. by apply get_set_ne.
  - intros Hu. unfold refreshUser, run, refreshUser_begin. by rewrite Hu.
Qed.

(** X23: a refresh that is aborted leaves the session as it was.  When
    [abortRefresh()] is called while the provider call of [refreshUser] is
    pending and the provider then fails with the cancellation error, the
    call rejects with that error, the session state is the one before the
    call and the refresh controller is cleared. *)
Theorem refreshUser_aborted_leaves_state svc u :
  user (state svc) = Some u →
  refresh (system (authService u) svc) u true = Rejected AbortError →
  let r := run refreshUser_begin refreshUser_resume abortRefresh svc in
  r.2 = Rejected AbortError
  ∧ state r.1 = state svc
  ∧ refreshController r.1 = None.
Proof.
  intros Hu Hcoop r. subst r. unfold run, refreshUser_begin. rewrite Hu.
  simpl.
  assert (Hab : aborted (length (controllers svc))
                  (abortRefresh
                     (with_refreshController (Some (length (controllers svc)))
                        (with_controllers (controllers svc ++ [false]) svc)))
                = true).
  { unfold abortRefresh, aborted, abort. simpl.
    rewrite list_lookup_insert_eq; [done|]. rewrite length_app. simpl. lia. }
  rewrite Hab, Hcoop. done.
Qed.

(** X24: an abort reaches the operation of its own kind only.  With a
    login and a refresh both waiting for their providers, [abortLogin()]
    aborts the signal of the login and leaves that of the refresh alone,
    and [abortRefresh()] the other way round; neither changes the session
    state. *)
Theorem abort_reaches_own_operation (options : LoginOptions) svc u :
  user (state svc) = Some u →
  let svc1 := (login_begin options svc).1 in
  let svc2 := (refreshUser_begin svc1).1 in
  ∃ cl cr,
    loginController svc2 = Some cl ∧ refreshController svc2 = Some cr
    ∧ cl ≠ cr
    ∧ aborted cl svc2 = false ∧ aborted cr svc2 = false
    ∧ aborted cl (abortLogin svc2) = true
    ∧ aborted cr (abortLogin svc2) = false
    ∧ aborted cr (abortRefresh svc2) = true
    ∧ aborted cl (abortRefresh svc2) = false
    ∧ state (abortLogin svc2) = state svc
    ∧ state (abortRefresh svc2) = state svc.
Proof.
  intros Hu svc1 svc2. subst svc1 svc2.
  unfold login_begin, refreshUser_begin. simpl. rewrite Hu. simpl.
  exists (length (controllers svc)), (length (controllers svc ++ [false])).
  rewrite length_app. simpl.
  assert (Hne : length (controllers svc) ≠ length (controllers svc) + 1) by lia.
  unfold abortLogin, abortRefresh, aborted, abort. simpl.
  split; [done|]. split; [done|]. split; [done|].
  assert (H0 : ((controllers svc ++ [false]) ++ [false]) !! length (controllers svc)
               = Some false).
  { rewrite <- app_assoc. by rewrite lookup_app_r, Nat.sub_diag. }
  assert (H1 : ((controllers svc ++ [false]) ++ [false])
                 !! (length (controllers svc) + 1) = Some false).
  { rewrite lookup_app_r; rewrite length_app; simpl; [|lia].
    by replace (length (controllers svc) + 1 - (length (controllers svc) + 1))
         with 0 by lia. }
  assert (Hlen : length ((controllers svc ++ [false]) ++ [false])
                 = length (controllers svc) + 2).
  { rewrite !length_app. simpl. lia. }
  rewrite H0, H1. simpl.
  rewrite list_lookup_insert_eq by lia.
  rewrite list_lookup_insert_ne by lia. rewrite H1.
  rewrite list_lookup_insert_eq by lia.
  rewrite list_lookup_insert_ne by lia. rewrite H0.
  by repeat split.
Qed.

End RefreshAndAbort.

(** [refreshUser_aborted_leaves_state] with accounts A and B and the
    provider [localSystem]. *)
Lemma refreshUser_aborted_leaves_state_witness :
  (run refreshUser_begin refreshUser_resume abortRefresh serviceAB).2
  = Rejected AbortError
  ∧ state (run refreshUser_begin refreshUser_resume abortRefresh serviceAB).1
    = state serviceAB.
Proof.
  destruct (refreshUser_aborted_leaves_state serviceAB (account "A" "pa")
              eq_refl eq_refl) as (Hout & Hstate & _).
  split; assumption.
Defined.

(** [abort_reaches_own_operation] on the same service. *)
Lemma abort_reaches_own_operation_witness :
  ∃ cl cr,
    loginController (refreshUser_begin (login_begin steve serviceAB).1).1 = Some cl
    ∧ refreshController (refreshUser_begin (login_begin steve serviceAB).1).1 = Some cr
    ∧ cl ≠ cr.
Proof.
  destruct (abort_reaches_own_operation steve serviceAB (account "A" "pa") eq_refl)
    as (cl & cr & Hl & Hr & Hne & _).
  exists cl, cr. by repeat split.
Defined.

(** [refreshUser_replaces_selected] on the same service. *)
Lemma refreshUser_replaces_selected_witness :
  (refreshUser serviceAB).2 = Resolved ()
  ∧ user (state (refreshUser serviceAB).1) = Some (account "A" "pa").
Proof.
  destruct (proj1 (refreshUser_replaces_selected serviceAB)
              (account "A" "pa") (account "A" "pa") eq_refl eq_refl)
    as (Hout & _ & _ & Hsel & _).
  split; [exact Hout | apply Hsel; reflexivity].
Defined.
